(** * StartupJS: the server resource manager and the client bootstrap

    A shallow embedding of
    - [packages/server/server/app/resourceManager.js]
      ([getResourcePath], [getHash], [getProductionStyles], all wrapped in
      lodash's [memoize]), and
    - the React Native client [init] (the default export that patches the
      ShareDB connection options),
    together with the properties their specification states.

    JavaScript values are modelled by the inductive type [value]; the
    module-level variables and the memoization caches are threaded through
    an explicit state, and a thrown exception is a [Throw] completion. *)

From Stdlib Require Import ZArith List String Ascii Bool Lia.
From Stdlib Require Import DecimalString.
From Stdlib Require Decimal DecimalPos DecimalZ.
Import ListNotations.

Local Open Scope list_scope.
Local Open Scope string_scope.

(** ** JavaScript values and the built-in operations the sources use *)

Module JS.

(** The values that reach the modelled functions: primitives and plain
    objects.  A number is an integer (ports and the like); a string is its
    sequence of UTF-8 bytes; an object is the list of its own enumerable
    properties in enumeration order, property names pairwise distinct
    (see [wf_value]).  Arrays, functions and symbols are not modelled. *)
#[warnings="-register-all"] Inductive value : Type :=
| VUndefined
| VNull
| VBool (b : bool)
| VNum (n : Z)
| VStr (s : string)
| VObj (fields : list (string * value)).

(** An exception object: [new Error(message)], or the [TypeError] the
    runtime raises itself (property access on [null], a call of something
    that is not a function, a non-string argument of [path.join]). *)
Inductive error : Type :=
| Error (message : string)
| TypeError (message : string).

(** The outcome of evaluating a call. *)
Inductive completion (A : Type) : Type :=
| Return (a : A)
| Throw (e : error).
Arguments Return {A} a.
Arguments Throw {A} e.

(** [Number::toString] on an integer: decimal digits, a leading minus sign
    for a negative number. *)
Definition string_of_Z (n : Z) : string :=
  NilZero.string_of_int (Z.to_int n).

(** [ToString(v)]; a plain object prints as [[object Object]]. *)
Definition ToString (v : value) : string :=
  match v with
  | VUndefined => "undefined"
  | VNull => "null"
  | VBool true => "true"
  | VBool false => "false"
  | VNum n => string_of_Z n
  | VStr s => s
  | VObj _ => "[object Object]"
  end.

(** [s + v] where [s] is a string: concatenation with [ToString(v)]. *)
Definition str_add (s : string) (v : value) : string := s ++ ToString v.

(** [ToBoolean(v)]. *)
Definition truthy (v : value) : bool :=
  match v with
  | VUndefined | VNull => false
  | VBool b => b
  | VNum n => negb (n =? 0)%Z
  | VStr s => negb (s =? "")
  | VObj _ => true
  end.

(** [a || b] *)
Definition or_else (a b : value) : value := if truthy a then a else b.

(** [v === 'lit'], the comparison a [switch] on a string literal makes. *)
Definition strict_eq_str (v : value) (lit : string) : bool :=
  match v with VStr s => (s =? lit) | _ => false end.

(** [SameValueZero], the key comparison of a [Map].  Objects are compared
    by reference; the model has no references and takes every object
    argument for a fresh one, which never equals a stored key. *)
Definition same_value_zero (a b : value) : bool :=
  match a, b with
  | VUndefined, VUndefined => true
  | VNull, VNull => true
  | VBool x, VBool y => Bool.eqb x y
  | VNum x, VNum y => (x =? y)%Z
  | VStr x, VStr y => (x =? y)
  | _, _ => false
  end.

Definition is_primitive (v : value) : bool :=
  match v with VObj _ => false | _ => true end.

Fixpoint lookup_field (k : string) (fields : list (string * value)) : value :=
  match fields with
  | [] => VUndefined
  | (k', v) :: rest => if (k' =? k) then v else lookup_field k rest
  end.

(** [o[k]] / [o.k]: a [TypeError] on [undefined] and [null]; the own
    property, or [undefined] when there is none, on an object.  On the
    other primitives the model answers [undefined]: the sources read only
    the names [BUILD_REFERENCE_URL], [DEV_PORT], [PROJECT_PATH] and [js]
    there, which no wrapper prototype defines, or they read [x[appName]]
    and then [.js] of it, where a character, a length or an inherited
    method again has no [js]. *)
Definition get_prop (o : value) (k : string) : completion value :=
  match o with
  | VUndefined | VNull =>
      Throw (TypeError ("Cannot read properties of " ++ ToString o))
  | VObj fields => Return (lookup_field k fields)
  | _ => Return VUndefined
  end.

(** The i-th actual argument, [undefined] when the call passes fewer. *)
Definition arg (i : nat) (args : list value) : value := nth i args VUndefined.

(** A parameter with default [= {}]: the default replaces [undefined] only. *)
Definition default_obj (v : value) : value :=
  match v with VUndefined => VObj [] | _ => v end.

(** *** The regular expression [/\.([^.]+)\.js$/]

    [span_not_dot s] is the longest prefix of [s] without a dot, and the
    rest.  [[^.]+] is greedy, and giving back a character never helps: the
    next pattern character is a literal dot, and the character given back
    is not one. *)
Fixpoint span_not_dot (s : string) : string * string :=
  match s with
  | EmptyString => (EmptyString, EmptyString)
  | String c r =>
      if Ascii.eqb c "." then (EmptyString, s)
      else let (h, t) := span_not_dot r in (String c h, t)
  end.

(** The pattern matched with its first character at the head of [s]:
    a dot, a non-empty run without dots (group 1), then [.js] and the end
    of the input. *)
Definition match_at (s : string) : option string :=
  match s with
  | String c r =>
      if Ascii.eqb c "." then
        let (h, t) := span_not_dot r in
        if negb (h =? "") && (t =? ".js") then Some h else None
      else None
  | EmptyString => None
  end.

(** [s.match(/\.([^.]+)\.js$/)]: the leftmost match; [Some h] stands for the
    match array, whose element [1] is [h]; [None] for [null]. *)
Fixpoint regexp_match (s : string) : option string :=
  match match_at s with
  | Some h => Some h
  | None =>
      match s with
      | EmptyString => None
      | String _ r => regexp_match r
      end
  end.

(** *** [JSON.stringify] *)

Definition dquote : ascii := "034"%char.
Definition backslash : ascii := "\"%char.

Definition hex_digit (n : nat) : ascii :=
  nth n ["0"; "1"; "2"; "3"; "4"; "5"; "6"; "7"; "8"; "9";
         "a"; "b"; "c"; "d"; "e"; "f"]%char "0"%char.

(** [QuoteJSONString], one character: the quote and the backslash are
    escaped, the control characters below U+0020 have their short form or
    [\u00XX]; every other byte stands for itself. *)
Definition json_escape_char (c : ascii) : string :=
  let n := nat_of_ascii c in
  if (n =? 34)%nat then String backslash (String dquote "")
  else if (n =? 92)%nat then String backslash (String backslash "")
  else if (n =? 8)%nat then String backslash "b"
  else if (n =? 9)%nat then String backslash "t"
  else if (n =? 10)%nat then String backslash "n"
  else if (n =? 12)%nat then String backslash "f"
  else if (n =? 13)%nat then String backslash "r"
  else if (n <? 32)%nat then
    String backslash
      (String "u" (String "0" (String "0"
         (String (hex_digit (n / 16)) (String (hex_digit (n mod 16)) "")))))
  else String c "".

Fixpoint json_escape (s : string) : string :=
  match s with
  | EmptyString => EmptyString
  | String c r => json_escape_char c ++ json_escape r
  end.

Definition QuoteJSONString (s : string) : string :=
  String dquote (json_escape s ++ String dquote "").

(** [SerializeJSONProperty]: [None] where JSON.stringify yields
    [undefined]; a property whose value is [undefined] is left out of its
    object. *)
Fixpoint SerializeJSONProperty (v : value) : option string :=
  match v with
  | VUndefined => None
  | VNull => Some "null"
  | VBool b => Some (if b then "true" else "false")
  | VNum n => Some (string_of_Z n)
  | VStr s => Some (QuoteJSONString s)
  | VObj fields =>
      let fix members (fs : list (string * value)) : list string :=
        match fs with
        | [] => []
        | (k, x) :: rest =>
            match SerializeJSONProperty x with
            | Some j => (QuoteJSONString k ++ ":" ++ j) :: members rest
            | None => members rest
            end
        end in
      Some ("{" ++ String.concat "," (members fields) ++ "}")
  end.

(** An array element that is [undefined] is written [null]. *)
Definition json_element (v : value) : string :=
  match SerializeJSONProperty v with Some j => j | None => "null" end.

(** [JSON.stringify(args)] of the array of actual arguments. *)
Definition JSON_stringify (args : list value) : string :=
  "[" ++ String.concat "," (map json_element args) ++ "]".

(** *** Vocabulary for the properties of the built-ins *)

(** [name.hash.js]: the file name ends in a dot, a non-empty [hash]
    without dots, and [.js]. *)
Fixpoint dot_free (s : string) : bool :=
  match s with
  | EmptyString => true
  | String c r => negb (Ascii.eqb c ".") && dot_free r
  end.

Definition has_shape (filename hash : string) : Prop :=
  exists name, filename = name ++ "." ++ hash ++ ".js"
               /\ hash <> "" /\ dot_free hash = true.

Fixpoint count_dots (s : string) : nat :=
  match s with
  | EmptyString => 0
  | String c r => (if Ascii.eqb c "." then 1 else 0) + count_dots r
  end.

(** Reading back the first character of an escaped string; a bare quote
    is not one. *)
Definition hex_value (c : ascii) : nat :=
  let n := nat_of_ascii c in
  if (n <? 58)%nat then n - 48 else n - 87.

Definition unescape_short (d : ascii) : ascii :=
  if Ascii.eqb d "b" then "008"
  else if Ascii.eqb d "t" then "009"
  else if Ascii.eqb d "n" then "010"
  else if Ascii.eqb d "f" then "012"
  else if Ascii.eqb d "r" then "013"
  else d.

Definition unescape_head (s : string) : option (ascii * string) :=
  match s with
  | EmptyString => None
  | String c r =>
      if Ascii.eqb c dquote then None
      else if Ascii.eqb c backslash then
        match r with
        | String d r1 =>
            if Ascii.eqb d "u" then
              match r1 with
              | String _ (String _ (String h (String l r2))) =>
                  Some (ascii_of_nat (16 * hex_value h + hex_value l), r2)
              | _ => None
              end
            else Some (unescape_short d, r1)
        | EmptyString => None
        end
      else Some (c, r)
  end.

Definition is_digit (c : ascii) : bool :=
  let n := nat_of_ascii c in (48 <=? n)%nat && (n <=? 57)%nat.

Definition starts_with_digit (r : string) : bool :=
  match r with String c _ => is_digit c | EmptyString => false end.

(** What may follow a value inside the output of [JSON.stringify]. *)
Definition is_delim (r : string) : bool :=
  match r with
  | EmptyString => true
  | String c _ => Ascii.eqb c "," || Ascii.eqb c "]" || Ascii.eqb c "}"
  end.

Definition is_undefined (v : value) : bool :=
  match v with VUndefined => true | _ => false end.

Definition is_nullish (v : value) : bool :=
  match v with VUndefined | VNull => true | _ => false end.

(** The properties [JSON.stringify] writes. *)
Definition present (fields : list (string * value)) : list (string * value) :=
  filter (fun p => negb (is_undefined (snd p))) fields.

(** A value up to what [JSON.stringify] does not write: properties whose
    value is [undefined] are dropped, at every depth. *)
Fixpoint norm (v : value) : value :=
  match v with
  | VObj fields =>
      VObj ((fix norm_fields (fs : list (string * value)) :=
               match fs with
               | [] => []
               | (k, x) :: rest =>
                   if is_undefined x then norm_fields rest
                   else (k, norm x) :: norm_fields rest
               end) fields)
  | _ => v
  end.

(** An argument up to its serialization: [undefined] is written [null]. *)
Definition norm_arg (v : value) : value :=
  match v with VUndefined => VNull | _ => norm v end.

Definition defined (v : value) : value :=
  match v with VUndefined => VNull | _ => v end.

Definition json_member (p : string * value) : string :=
  QuoteJSONString (fst p) ++ ":" ++ json_element (snd p).

Definition norm_member (p : string * value) : string * value :=
  (fst p, norm (snd p)).

(** A comma-separated sequence and its closing bracket, then [r]. *)
Section Sequence.
Variable A : Type.
Variable ser : A -> string.
Variable close : ascii.

Fixpoint seq_tail (l : list A) (r : string) : string :=
  match l with
  | [] => String close r
  | a :: t => String "," (ser a ++ seq_tail t r)
  end.

Definition seq_text (l : list A) (r : string) : string :=
  match l with
  | [] => String close r
  | a :: t => ser a ++ seq_tail t r
  end.

(** The text of [a] ends where a delimiter follows, and determines [a]
    up to [R]. *)
Definition item_inj (R : A -> A -> Prop) (ok : A -> Prop) (a : A) : Prop :=
  forall b r r', ok b -> ser a ++ r = ser b ++ r' ->
                 is_delim r = true -> is_delim r' = true ->
                 R a b /\ r = r'.
End Sequence.
Arguments seq_tail {A} ser close l r.
Arguments seq_text {A} ser close l r.
Arguments item_inj {A} ser R ok a.

(** The first character of a serialized value tells its kind. *)
Definition kind (v : value) : nat :=
  match v with
  | VUndefined => 0
  | VNull => 1
  | VBool true => 2
  | VBool false => 3
  | VNum _ => 4
  | VStr _ => 5
  | VObj _ => 6
  end.

Definition char_kind (c : ascii) : nat :=
  if Ascii.eqb c "n" then 1
  else if Ascii.eqb c "t" then 2
  else if Ascii.eqb c "f" then 3
  else if is_digit c || Ascii.eqb c "-" then 4
  else if Ascii.eqb c dquote then 5
  else if Ascii.eqb c "{" then 6
  else 0.

Definition member_rel (p q : string * value) : Prop :=
  fst p = fst q /\ norm (snd p) = norm (snd q).

Definition member_ok (p : string * value) : Prop := snd p <> VUndefined.

Definition element_inj (v : value) : Prop :=
  v <> VUndefined ->
  forall v' r r',
    v' <> VUndefined ->
    json_element v ++ r = json_element v' ++ r' ->
    is_delim r = true -> is_delim r' = true ->
    norm v = norm v' /\ r = r'.

(** Property names are pairwise distinct, in the value and inside it. *)
Fixpoint wf_value (v : value) : bool :=
  match v with
  | VObj fields =>
      (fix wf_fields (fs : list (string * value)) : bool :=
         match fs with
         | [] => true
         | (k, x) :: rest =>
             negb (existsb (fun p => fst p =? k) rest)
             && wf_value x && wf_fields rest
         end) fields
  | _ => true
  end.

(** The own properties of an options argument, none for a primitive. *)
Definition own_fields (o : value) : list (string * value) :=
  match o with VObj fields => fields | _ => [] end.

(** [options.name], [undefined] when [options] has no such property. *)
Definition option_of (options : value) (name : string) : value :=
  lookup_field name (own_fields options).

End JS.

(** ** The resource manager: [resourceManager.js] *)

Module ResourceManager.
Import JS.

(** What the module sees of the Node.js process: the environment
    variables, the working directory, [path.join], [require] of a JSON
    file ([None] when it throws: no such file, or not JSON) and the two
    [fs] calls.  The environment and the files are fixed for the lifetime
    of the process, so the module cache of [require] does not show. *)
Record World : Type := {
  env : string -> option string;
  cwd : string;
  path_join : list string -> string;
  require : string -> option value;
  existsSync : string -> bool;
  readFileSync : string -> option string
}.

(** [process.env.NAME] *)
Definition process_env (W : World) (name : string) : value :=
  match env W name with Some s => VStr s | None => VUndefined end.

(** A [Map] used as memoization cache: the bindings, newest first. *)
Definition cache : Type := list (value * value).

Fixpoint cache_get (key : value) (c : cache) : option value :=
  match c with
  | [] => None
  | (k, v) :: rest => if same_value_zero k key then Some v else cache_get key rest
  end.

Definition cache_set (key result : value) (c : cache) : cache :=
  (key, result) :: c.

(** The module-level variable [PROJECT_PATH], the cache of each memoized
    export, and the lines written to the console. *)
Record State : Type := {
  PROJECT_PATH : value;
  getResourcePath_cache : cache;
  getHash_cache : cache;
  getProductionStyles_cache : cache;
  console : list string
}.

(** [const BUILD_CLIENT_PATH = process.env.BUILD_CLIENT_PATH || '/build/client/'] *)
Definition BUILD_CLIENT_PATH (W : World) : string :=
  ToString (or_else (process_env W "BUILD_CLIENT_PATH") (VStr "/build/client/")).

(** The state once the module is loaded:
    [let PROJECT_PATH = process.env.PROJECT_PATH || process.cwd()],
    and three empty caches. *)
Definition initial (W : World) : State :=
  {| PROJECT_PATH := or_else (process_env W "PROJECT_PATH") (VStr (cwd W));
     getResourcePath_cache := [];
     getHash_cache := [];
     getProductionStyles_cache := [];
     console := [] |}.

(** *** Computations: state passing with exceptions *)

Definition M (A : Type) : Type := State -> completion A * State.

Definition ret {A} (a : A) : M A := fun s => (Return a, s).
Definition throw {A} (e : error) : M A := fun s => (Throw e, s).
Definition lift {A} (c : completion A) : M A := fun s => (c, s).
Definition bind {A B} (m : M A) (f : A -> M B) : M B :=
  fun s =>
    match m s with
    | (Return a, s') => f a s'
    | (Throw e, s') => (Throw e, s')
    end.

Notation "x <- m ;; k" := (bind m (fun x => k))
  (at level 61, m at next level, right associativity).
Notation "m ;;; k" := (bind m (fun _ => k))
  (at level 61, right associativity).

Definition read_PROJECT_PATH : M value := fun s => (Return (PROJECT_PATH s), s).

Definition write_PROJECT_PATH (v : value) : M unit :=
  fun s =>
    (Return tt,
     {| PROJECT_PATH := v;
        getResourcePath_cache := getResourcePath_cache s;
        getHash_cache := getHash_cache s;
        getProductionStyles_cache := getProductionStyles_cache s;
        console := console s |}).

(** [console.log] and [console.error]: one more line. *)
Definition console_write (line : string) : M unit :=
  fun s =>
    (Return tt,
     {| PROJECT_PATH := PROJECT_PATH s;
        getResourcePath_cache := getResourcePath_cache s;
        getHash_cache := getHash_cache s;
        getProductionStyles_cache := getProductionStyles_cache s;
        console := (console s ++ [line])%list |}).

(** The three memoized exports, and the cache each one owns
    ([memoized.cache]). *)
Inductive memoized : Type :=
| the_getResourcePath
| the_getHash
| the_getProductionStyles.

Definition cache_of (f : memoized) (s : State) : cache :=
  match f with
  | the_getResourcePath => getResourcePath_cache s
  | the_getHash => getHash_cache s
  | the_getProductionStyles => getProductionStyles_cache s
  end.

Definition with_cache (f : memoized) (c : cache) (s : State) : State :=
  {| PROJECT_PATH := PROJECT_PATH s;
     getResourcePath_cache :=
       match f with the_getResourcePath => c | _ => getResourcePath_cache s end;
     getHash_cache :=
       match f with the_getHash => c | _ => getHash_cache s end;
     getProductionStyles_cache :=
       match f with
       | the_getProductionStyles => c
       | _ => getProductionStyles_cache s
       end;
     console := console s |}.

(** lodash's [memoize(func, resolver)]:
<<
    const key = resolver ? resolver.apply(this, args) : args[0]
    const cache = memoized.cache
    if (cache.has(key)) return cache.get(key)
    const result = func.apply(this, args)
    memoized.cache = cache.set(key, result) || cache
    return result
>>
    [f] names the memoized function, whose cache is [cache_of f].  When
    [func] throws, nothing is stored. *)
Definition memoize (f : memoized) (resolver : list value -> value)
    (func : list value -> M value) : list value -> M value :=
  fun args s =>
    let key := resolver args in
    match cache_get key (cache_of f s) with
    | Some v => (Return v, s)
    | None =>
        match func args s with
        | (Return result, s') =>
            (Return result, with_cache f (cache_set key result (cache_of f s')) s')
        | (Throw e, s') => (Throw e, s')
        end
    end.

(** Without a resolver the key is the first argument. *)
Definition first_argument (args : list value) : value := arg 0 args.

(** [(...args) => JSON.stringify(args)] *)
Definition stringify_arguments (args : list value) : value :=
  VStr (JSON_stringify args).

(** [path.join(...)] from JavaScript: every argument has to be a string. *)
Fixpoint all_strings (vs : list value) : option (list string) :=
  match vs with
  | [] => Some []
  | VStr s :: rest =>
      match all_strings rest with
      | Some l => Some (s :: l)
      | None => None
      end
  | _ :: _ => None
  end.

Definition path_join_js (W : World) (parts : list value) : completion string :=
  match all_strings parts with
  | Some l => Return (path_join W l)
  | None => Throw (TypeError "The path argument must be of type string")
  end.

(** *** [getHash] *)

(** The [switch (type)] of [getHash], once the manifest [assetsMeta] is
    loaded from [assetsMetaPath]. *)
Definition hash_of_manifest (assetsMeta appName type : value)
    (assetsMetaPath : string) : completion value :=
  if strict_eq_str type "bundle" then
    (* hash = assetsMeta && assetsMeta[appName] && assetsMeta[appName].js *)
    let hash :=
      if truthy assetsMeta then
        match get_prop assetsMeta (ToString appName) with
        | Return entry =>
            if truthy entry then get_prop entry "js" else Return entry
        | Throw e => Throw e
        end
      else Return assetsMeta in
    match hash with
    | Throw e => Throw e
    | Return hash =>
        if negb (truthy hash) then
          Throw (Error ("No hash found for '" ++ ToString appName ++ "' "
                        ++ ToString type ++ " in " ++ assetsMetaPath))
        else
          (* hash = hash.match(/\.([^.]+)\.js$/); hash && (hash = hash[1]) *)
          match hash with
          | VStr filename =>
              match regexp_match filename with
              | Some h =>
                  if negb (truthy (VStr h)) then
                    Throw (Error "No hash in bundle filename. Filename should be in the following format: '[name].[hash].js'")
                  else Return (VStr h)
              | None =>
                  Throw (Error "No hash in bundle filename. Filename should be in the following format: '[name].[hash].js'")
              end
          | _ => Throw (TypeError "hash.match is not a function")
          end
    end
  else
    Throw (Error ("No hash exists for assets of type '" ++ ToString type ++ "'")).

Definition getHash_func (W : World) (args : list value) : M value :=
  let appName := arg 0 args in
  let type := arg 1 args in
  let options := default_obj (arg 2 args) in
  if negb (strict_eq_str (process_env W "NODE_ENV") "production") then
    ret VUndefined
  else if negb (truthy appName) then ret (VStr "")
  else
    given <- lift (get_prop options "PROJECT_PATH") ;;
    old <- read_PROJECT_PATH ;;
    write_PROJECT_PATH (or_else given old) ;;;
    project <- read_PROJECT_PATH ;;
    logged <- lift (path_join_js W
                [project; VStr (BUILD_CLIENT_PATH W); VStr "assets.json"]) ;;
    console_write (logged ++
      " path.join(PROJECT_PATH, BUILD_CLIENT_PATH, 'assets.json')") ;;;
    assetsMetaPath <- lift (path_join_js W
                [project; VStr (BUILD_CLIENT_PATH W); VStr "assets.json"]) ;;
    match require W assetsMetaPath with
    | None =>
        throw (Error ("Error loading assets meta file at: " ++ assetsMetaPath))
    | Some assetsMeta =>
        lift (hash_of_manifest assetsMeta appName type assetsMetaPath)
    end.

Definition getHash (W : World) : list value -> M value :=
  memoize the_getHash first_argument (getHash_func W).

(** *** [getResourcePath] *)

Definition getResourcePath_func (W : World) (args : list value) : M value :=
  let type := arg 0 args in
  let appName := arg 1 args in
  let options := default_obj (arg 2 args) in
  if strict_eq_str type "bundle" then
    fixes <-
      (if strict_eq_str (process_env W "NODE_ENV") "production" then
         reference <- lift (get_prop options "BUILD_REFERENCE_URL") ;;
         hash <- getHash W [appName; type; options] ;;
         ret (or_else reference (VStr ""), str_add "." hash)
       else if truthy (process_env W "DEVSERVER_URL") then
         ret (process_env W "DEVSERVER_URL", "")
       else
         port <- lift (get_prop options "DEV_PORT") ;;
         ret (VStr (str_add "http://localhost:"
                      (or_else port
                         (or_else (process_env W "DEV_PORT") (VNum 3010)))),
              "")) ;;
    let '(prefix, postfix) := fixes in
    ret (VStr (ToString prefix ++ BUILD_CLIENT_PATH W ++ ToString appName
               ++ postfix ++ ".js"))
  else if strict_eq_str type "style" then
    ret (VStr (str_add (BUILD_CLIENT_PATH W) appName ++ ".css"))
  else
    throw (Error ("No resource found for '" ++ ToString type ++ "'")).

Definition getResourcePath (W : World) : list value -> M value :=
  memoize the_getResourcePath stringify_arguments (getResourcePath_func W).

(** *** [getProductionStyles] (deprecated) *)

Definition getProductionStyles_func (W : World) (args : list value) : M value :=
  let appName := arg 0 args in
  let options := default_obj (arg 1 args) in
  given <- lift (get_prop options "PROJECT_PATH") ;;
  old <- read_PROJECT_PATH ;;
  write_PROJECT_PATH (or_else given old) ;;;
  styleRelPath <- getResourcePath W [VStr "style"; appName; options] ;;
  project <- read_PROJECT_PATH ;;
  stylePath <- lift (path_join_js W [project; styleRelPath]) ;;
  if negb (existsSync W stylePath) then
    console_write ("No stylesheets found for '" ++ ToString appName
                   ++ "' at path: " ++ stylePath) ;;;
    ret VUndefined
  else
    match readFileSync W stylePath with
    | Some style => ret (VStr ("<style>" ++ style ++ "</style>"))
    | None => throw (Error ("Cannot read " ++ stylePath))
    end.

Definition getProductionStyles (W : World) : list value -> M value :=
  memoize the_getProductionStyles first_argument (getProductionStyles_func W).

(** *** The states the process goes through *)

(** A call of one of the exported functions. *)
Definition run (W : World) (f : memoized) : list value -> M value :=
  match f with
  | the_getResourcePath => getResourcePath W
  | the_getHash => getHash W
  | the_getProductionStyles => getProductionStyles W
  end.

(** [later W s s']: the module gets from state [s] to state [s'] by calls
    of its exports, whether they return or throw. *)
Inductive later (W : World) (s : State) : State -> Prop :=
| later_now : later W s s
| later_call : forall s' f args,
    later W s s' ->
    forallb wf_value args = true ->
    later W s (snd (run W f args s')).

(** The states of a process that loaded the module. *)
Definition reachable (W : World) (s : State) : Prop := later W (initial W) s.

(** *** Vocabulary for the properties of the resource manager *)

(** Every cached result of [s] is still cached in [s']. *)
Definition extends (s s' : State) : Prop :=
  forall f k v, cache_get k (cache_of f s) = Some v ->
                cache_get k (cache_of f s') = Some v.

(** [process.env.NODE_ENV === 'production'] *)
Definition in_production (W : World) : bool :=
  strict_eq_str (process_env W "NODE_ENV") "production".

(** The URLs of the specification. *)
Definition production_bundle_url (W : World) (options appName hash : value)
    : string :=
  ToString (or_else (option_of options "BUILD_REFERENCE_URL") (VStr ""))
  ++ BUILD_CLIENT_PATH W ++ ToString appName ++ "." ++ ToString hash ++ ".js".

Definition development_server (W : World) (options : value) : value :=
  or_else (process_env W "DEVSERVER_URL")
    (VStr ("http://localhost:" ++
           ToString (or_else (option_of options "DEV_PORT")
                       (or_else (process_env W "DEV_PORT") (VNum 3010))))).

Definition development_bundle_url (W : World) (options appName : value)
    : string :=
  ToString (development_server W options)
  ++ BUILD_CLIENT_PATH W ++ ToString appName ++ ".js".

Definition style_url (W : World) (appName : value) : string :=
  BUILD_CLIENT_PATH W ++ ToString appName ++ ".css".

(** The URL of a bundle in production, given how the hash lookup ended. *)
Definition bundle_url_with (W : World) (options appName : value)
    (hash : completion value) : completion value :=
  match hash with
  | Return h => Return (VStr (production_bundle_url W options appName h))
  | Throw e => Throw e
  end.

(** What a cached result of [getResourcePath] is, for the arguments
    [args] it was computed from. *)
Definition resource_entry_ok (W : World) (s : State) (args : list value)
    (v : value) : Prop :=
  (arg 0 args = VStr "style" /\ v = VStr (style_url W (arg 1 args)))
  \/ (arg 0 args = VStr "bundle" /\ in_production W = true /\
      exists hash,
        (is_primitive (arg 1 args) = true ->
         cache_get (arg 1 args) (getHash_cache s) = Some hash) /\
        v = VStr (production_bundle_url W (arg 2 args) (arg 1 args) hash))
  \/ (arg 0 args = VStr "bundle" /\ in_production W = false /\
      v = VStr (development_bundle_url W (arg 2 args) (arg 1 args))).

(** The invariant of the caches: every cached resource path belongs to
    some arguments with that key, and outside production [getHash] has
    only ever answered [undefined]. *)
Definition Inv (W : World) (s : State) : Prop :=
  (forall k v, cache_get k (getResourcePath_cache s) = Some v ->
     exists args, k = stringify_arguments args /\
                  forallb wf_value args = true /\
                  resource_entry_ok W s args v)
  /\ (in_production W = false ->
      forall k v, cache_get k (getHash_cache s) = Some v -> v = VUndefined).

(** The file name the manifest records for [appName]:
    [{ appName: { js: filename } }]. *)
Definition recorded_js (assetsMeta : value) (appName : string) : option string :=
  match assetsMeta with
  | VObj apps =>
      match lookup_field appName apps with
      | VObj entry =>
          match lookup_field "js" entry with
          | VStr filename => Some filename
          | _ => None
          end
      | _ => None
      end
  | _ => None
  end.

(** The call [getHash(...args)] in state [s] is not answered early: the
    process is in production, [appName] is not empty and no result is
    cached for it.  ([appName] is a primitive: whether a result is cached
    for an object depends on its identity.) *)
Definition getHash_computes (W : World) (s : State) (args : list value) : Prop :=
  env W "NODE_ENV" = Some "production"
  /\ truthy (arg 0 args) = true
  /\ is_primitive (arg 0 args) = true
  /\ cache_get (arg 0 args) (getHash_cache s) = None.

(** The call [getProductionStyles(...args)] in state [s] is not answered
    from the cache. *)
Definition getProductionStyles_computes (s : State) (args : list value) : Prop :=
  is_primitive (arg 0 args) = true
  /\ cache_get (arg 0 args) (getProductionStyles_cache s) = None.

Definition assetsMetaPath (W : World) (project : string) : string :=
  path_join W [project; BUILD_CLIENT_PATH W; "assets.json"].

(** The call gets as far as loading the manifest at [path], and [require]
    answers [loaded] ([None]: it throws). *)
Definition getHash_loads (W : World) (s : State) (args : list value)
    (path : string) (loaded : option value) : Prop :=
  getHash_computes W s args
  /\ exists given project,
       get_prop (default_obj (arg 2 args)) "PROJECT_PATH" = Return given
       /\ or_else given (PROJECT_PATH s) = VStr project
       /\ path = assetsMetaPath W project
       /\ require W path = loaded.

(** The two messages for a recorded file name that carries no hash. *)
Definition no_hash_error (appName : value) (path filename : string) : error :=
  if filename =? "" then
    Error ("No hash found for '" ++ ToString appName ++ "' bundle in " ++ path)
  else
    Error "No hash in bundle filename. Filename should be in the following format: '[name].[hash].js'".

(** What [getHash] answers in production: the empty string for an empty
    [appName], else the hash of the file name some manifest records. *)
Definition hash_entry_ok (W : World) (appName v : value) : Prop :=
  (truthy appName = false /\ v = VStr "")
  \/ (truthy appName = true /\
      exists project assetsMeta filename hash,
        require W (assetsMetaPath W project) = Some assetsMeta
        /\ recorded_js assetsMeta (ToString appName) = Some filename
        /\ has_shape filename hash
        /\ v = VStr hash).

(** The error of [path.join] for an argument that is not a string. *)
Definition path_TypeError : error :=
  TypeError "The path argument must be of type string".

(** The options argument of each export. *)
Definition options_of (f : memoized) (args : list value) : value :=
  match f with
  | the_getProductionStyles => arg 1 args
  | _ => arg 2 args
  end.

(** What [getProductionStyles] answers once the style sheet is looked for
    at [stylePath]. *)
Definition style_at (W : World) (stylePath : string) : completion value :=
  if existsSync W stylePath then
    match readFileSync W stylePath with
    | Some style => Return (VStr ("<style>" ++ style ++ "</style>"))
    | None => Throw (Error ("Cannot read " ++ stylePath))
    end
  else Return VUndefined.

(** *** A POSIX [path.join], and two sample processes *)

Module Sample.

Fixpoint segments (s : string) : list string :=
  match s with
  | EmptyString => [EmptyString]
  | String c r =>
      if Ascii.eqb c "/" then EmptyString :: segments r
      else
        match segments r with
        | x :: xs => String c x :: xs
        | [] => [String c EmptyString]
        end
  end.

(** Node's [normalizeString]: the stack of kept segments, last one first. *)
Fixpoint normalize_segments (allowAboveRoot : bool) (segs stack : list string)
    : list string :=
  match segs with
  | [] => stack
  | seg :: rest =>
      if (seg =? "") || (seg =? ".") then
        normalize_segments allowAboveRoot rest stack
      else if seg =? ".." then
        match stack with
        | top :: below =>
            if top =? ".." then
              normalize_segments allowAboveRoot rest (seg :: stack)
            else normalize_segments allowAboveRoot rest below
        | [] =>
            if allowAboveRoot then
              normalize_segments allowAboveRoot rest [seg]
            else normalize_segments allowAboveRoot rest []
        end
      else normalize_segments allowAboveRoot rest (seg :: stack)
  end.

Definition ends_with_slash (s : string) : bool :=
  match List.rev (list_ascii_of_string s) with
  | c :: _ => Ascii.eqb c "/"
  | [] => false
  end.

Definition normalize (path : string) : string :=
  if path =? "" then "."
  else
    let isAbsolute :=
      match path with String c _ => Ascii.eqb c "/" | _ => false end in
    let trailingSeparator := ends_with_slash path in
    let p := String.concat "/"
               (List.rev
                  (normalize_segments (negb isAbsolute) (segments path) [])) in
    if p =? "" then
      if isAbsolute then "/" else if trailingSeparator then "./" else "."
    else
      let p := if trailingSeparator then p ++ "/" else p in
      if isAbsolute then "/" ++ p else p.

Definition posix_join (parts : list string) : string :=
  match filter (fun a => negb (a =? "")) parts with
  | [] => "."
  | nonempty => normalize (String.concat "/" nonempty)
  end.

(** The manifest of the specification's example. *)
Definition manifest : value :=
  VObj [("app", VObj [("js", VStr "app.abc123.js")])].

(** The manifest of a later build, under [/srv/next]; the name recorded
    for [admin] carries no hash. *)
Definition next_manifest : value :=
  VObj [("app", VObj [("js", VStr "app.fedcba.js")]);
        ("admin", VObj [("js", VStr "admin.js")])].

Definition files (p : string) : option value :=
  if p =? "/srv/app/build/client/assets.json" then Some manifest
  else if p =? "/srv/next/build/client/assets.json" then Some next_manifest
  else None.

(** A production process started in [/srv/app]. *)
Definition production : World :=
  {| env := fun name => if name =? "NODE_ENV" then Some "production" else None;
     cwd := "/srv/app";
     path_join := posix_join;
     require := files;
     existsSync := fun p => p =? "/srv/app/build/client/app.css";
     readFileSync := fun p =>
       if p =? "/srv/app/build/client/app.css" then Some "body{}" else None |}.

(** A development process: [NODE_ENV] is not set. *)
Definition development : World :=
  {| env := fun name => if name =? "DEV_PORT" then Some "4000" else None;
     cwd := "/srv/app";
     path_join := posix_join;
     require := files;
     existsSync := fun _ => false;
     readFileSync := fun _ => None |}.

(** A production process whose next build, under [/srv/next], has a style
    sheet for [admin]. *)
Definition staged : World :=
  {| env := fun name => if name =? "NODE_ENV" then Some "production" else None;
     cwd := "/srv/app";
     path_join := posix_join;
     require := files;
     existsSync := fun p => p =? "/srv/next/build/client/admin.css";
     readFileSync := fun p =>
       if p =? "/srv/next/build/client/admin.css" then Some "h1{}" else None |}.

(** A development process behind a development server. *)
Definition proxied : World :=
  {| env := fun name =>
       if name =? "DEVSERVER_URL" then Some "https://dev.example"
       else if name =? "DEV_PORT" then Some "4000" else None;
     cwd := "/srv/app";
     path_join := posix_join;
     require := files;
     existsSync := fun _ => false;
     readFileSync := fun _ => None |}.

End Sample.

End ResourceManager.

(** ** The client bootstrap: [init] of the React Native client *)

Module ClientInit.
Import JS.

(** The constants [init] imports from [@startupjs/utils]; their modules
    are not part of the sources at hand, so they are parameters. *)
Record Platform : Type := {
  DEFAULT_BASE_URL : value;
  isDevelopment : bool;
  isExpo : bool;
  isWeb : bool
}.

(** What [init] does to the outside, in order.  [commonInit], the
    deprecated plugins and [connectModel] are external code: the model
    records that they are called, and with which options object. *)
Inductive event : Type :=
| console_warn (message : string)
| console_error (message : string)
| call_commonInit (options : list (string * value))
| call_plugin (plugin : string) (options : list (string * value))
| call_connectModel.

(** [globalThis.__startupjsChannelOptions] *)
Record ChannelOptions : Type := {
  baseUrl : value;
  forceXhrFallback : bool
}.

(** The process-wide state [init] writes: the [options] object it was
    given (it assigns to [options.baseUrl]), [axios.defaults.baseURL],
    the channel options, and the trace of events. *)
Record State : Type := {
  options : list (string * value);
  axios_defaults_baseURL : value;
  startupjsChannelOptions : option ChannelOptions;
  trace : list event
}.

(** [o.k = v] on an object: the property is replaced where it is, or
    added last. *)
Fixpoint set_field (k : string) (v : value) (fields : list (string * value))
    : list (string * value) :=
  match fields with
  | [] => [(k, v)]
  | (k', x) :: rest =>
      if (k' =? k) then (k, v) :: rest else (k', x) :: set_field k v rest
  end.

(** [v !== false] *)
Definition strict_neq_false (v : value) : bool :=
  match v with VBool false => false | _ => true end.

Definition NO_BASE_URL_WARN (P : Platform) : string :=
  "
  !!! WARNING !!! baseUrl option is not specified.
  Defaulting to " ++ ToString (DEFAULT_BASE_URL P) ++ "

  !!! IMPORTANT !!!
  This might only work fine in development mode or if you are on Web.
  In order for the app to work in production on React Native (iOS and Android),
  you MUST explicitly provide the baseUrl option because the app can't guess it.
  The simplest way to do it is to create a file `.env.production`
  and put `BASE_URL=https://mydomain.com` there.
".

Definition DEPRECATED_PLUGINS : string :=
  "DEPRECATED: Passing plugins to init() is deprecated. Use new plugins system instead".

(** [for (const plugin of options.plugins || []) { console.error(...); plugin(options) }] *)
Definition run_plugins (plugins : list string) (opts : list (string * value))
    : list event :=
  flat_map (fun plugin => [console_error DEPRECATED_PLUGINS; call_plugin plugin opts])
           plugins.

(** The default export.  [MODULE_options] is the object [MODULE.options],
    the configuration of the root module; [given] is the argument ([None]
    for a call without one, which takes the default [{}]) and [plugins]
    names the functions in its [plugins] array. *)
Definition init (P : Platform) (MODULE_options : list (string * value))
    (given : option (list (string * value))) (plugins : list string) : State :=
  let options0 := match given with Some o => o | None => [] end in
  (* options.baseUrl ??= MODULE.options.baseUrl *)
  let options1 :=
    if is_nullish (lookup_field "baseUrl" options0) then
      set_field "baseUrl" (lookup_field "baseUrl" MODULE_options) options0
    else options0 in
  let hasExplicitBaseUrl := truthy (lookup_field "baseUrl" options1) in
  (* on web we always use the default base url *)
  let options2 :=
    if isWeb P then set_field "baseUrl" (DEFAULT_BASE_URL P) options1
    else options1 in
  let '(warnings, options3) :=
    if negb (truthy (lookup_field "baseUrl" options2)) then
      ((if negb (isWeb P || (isExpo P && isDevelopment P))
        then [console_warn (NO_BASE_URL_WARN P)] else []),
       set_field "baseUrl" (DEFAULT_BASE_URL P) options2)
    else ([], options2) in
  let channel :=
    {| baseUrl := lookup_field "baseUrl" options3;
       forceXhrFallback :=
         strict_neq_false (lookup_field "enableXhrFallback" MODULE_options)
         && (isDevelopment P
             || (isExpo P && negb (isWeb P) && negb hasExplicitBaseUrl)) |} in
  let called :=
    (warnings ++ [call_commonInit options3]
              ++ run_plugins plugins options3)%list in
  (* if (MODULE.options.enableServer || MODULE.options.enableConnection) connectModel() *)
  let enabled :=
    or_else (lookup_field "enableServer" MODULE_options)
            (lookup_field "enableConnection" MODULE_options) in
  {| options := options3;
     axios_defaults_baseURL := lookup_field "baseUrl" options3;
     startupjsChannelOptions := Some channel;
     trace :=
       (called ++ (if truthy enabled then [call_connectModel] else []))%list |}.

(** *** Vocabulary for the properties of [init] *)

(** The precedence of the specification: the explicit option, else the
    configuration of the root module, else the default of the platform. *)
Definition by_precedence (explicit configured default : value) : value :=
  if truthy explicit then explicit
  else if truthy configured then configured
  else default.

(** The URL [init] leaves in [globalThis.__startupjsChannelOptions]. *)
Definition resolved_baseUrl (st : State) : option value :=
  option_map baseUrl (startupjsChannelOptions st).

(** The [baseUrl] option of the call. *)
Definition explicit_baseUrl (given : option (list (string * value))) : value :=
  lookup_field "baseUrl" (match given with Some o => o | None => [] end).

(** [options.baseUrl] after [options.baseUrl ??= MODULE.options.baseUrl]. *)
Definition effective_baseUrl (explicit configured : value) : value :=
  if is_nullish explicit then configured else explicit.

(** The options object of the call. *)
Definition given_options (given : option (list (string * value)))
    : list (string * value) :=
  match given with Some o => o | None => [] end.

(** [forceXhrFallback] of the channel options [init] leaves. *)
Definition channel_forceXhrFallback (st : State) : option bool :=
  option_map forceXhrFallback (startupjsChannelOptions st).

(** The options object an event hands to external code. *)
Definition handed_options (e : event) : option (list (string * value)) :=
  match e with
  | call_commonInit o => Some o
  | call_plugin _ o => Some o
  | _ => None
  end.

(** A production build for Expo on a device. *)
Definition native : Platform :=
  {| DEFAULT_BASE_URL := VStr "http://localhost:3000";
     isDevelopment := false; isExpo := true; isWeb := false |}.

End ClientInit.

(** * Properties *)

(** Case analysis on the innermost scrutinee of the goal. *)
Ltac split_match :=
  match goal with
  | |- context [match ?x with _ => _ end] =>
      lazymatch x with
      | context [match _ with _ => _ end] => fail
      | _ => destruct x eqn:?
      end
  end.

(** ** The built-ins *)

Module JSFacts.
Import JS.

(** *** Strings and keys *)

Lemma append_assoc (a b c : string) : (a ++ b) ++ c = a ++ (b ++ c).
Proof. induction a as [|x a IH]; simpl; [reflexivity|now rewrite IH]. Qed.

Lemma same_value_zero_eq a b : same_value_zero a b = true -> a = b.
Proof.
  destruct a, b; simpl; try discriminate; intros H; try reflexivity.
  - apply Bool.eqb_prop in H. congruence.
  - apply Z.eqb_eq in H. congruence.
  - apply String.eqb_eq in H. congruence.
Qed.

Lemma same_value_zero_refl a : is_primitive a = true -> same_value_zero a a = true.
Proof.
  destruct a; simpl; intros; try reflexivity; try discriminate.
  - apply Bool.eqb_reflx.
  - apply Z.eqb_refl.
  - apply String.eqb_refl.
Qed.

Lemma same_value_zero_neq a b : a <> b -> same_value_zero a b = false.
Proof.
  intros H. destruct (same_value_zero a b) eqn:E; [|reflexivity].
  apply same_value_zero_eq in E. contradiction.
Qed.

(** *** The regular expression

    [regexp_match] succeeds exactly on the names of the shape
    [name.hash.js], and answers the hash. *)

Lemma count_dots_app a b : count_dots (a ++ b) = count_dots a + count_dots b.
Proof. induction a as [|c a IH]; simpl; [reflexivity|rewrite IH; lia]. Qed.

Lemma dot_free_count s : dot_free s = true -> count_dots s = 0.
Proof.
  induction s as [|c s IH]; simpl; [reflexivity|].
  destruct (Ascii.eqb c "."); simpl; [discriminate|auto].
Qed.

Lemma span_not_dot_spec s h t :
  span_not_dot s = (h, t) ->
  s = h ++ t /\ dot_free h = true.
Proof.
  revert h t. induction s as [|c s IH]; simpl; intros h t.
  - intros [= <- <-]. auto.
  - destruct (Ascii.eqb c ".") eqn:E.
    + intros [= <- <-]. auto.
    + destruct (span_not_dot s) as [h0 t0]. intros [= <- <-].
      destruct (IH h0 t0 eq_refl) as [-> Hd]. simpl. rewrite E. auto.
Qed.

Lemma span_not_dot_app h t :
  dot_free h = true -> span_not_dot (h ++ String "." t) = (h, String "." t).
Proof.
  induction h as [|c h IH]; simpl; [reflexivity|].
  destruct (Ascii.eqb c "."); simpl; [discriminate|].
  intros H. now rewrite IH.
Qed.

Lemma match_at_Some s h :
  match_at s = Some h ->
  s = "." ++ h ++ ".js" /\ h <> "" /\ dot_free h = true.
Proof.
  destruct s as [|c s]; simpl; [discriminate|].
  destruct (Ascii.eqb c ".") eqn:Ec; [|discriminate].
  apply Ascii.eqb_eq in Ec. subst c.
  destruct (span_not_dot s) as [h0 t0] eqn:Es.
  apply span_not_dot_spec in Es as [-> Hd].
  destruct (h0 =? "") eqn:Eh; simpl; [discriminate|].
  destruct (t0 =? ".js") eqn:Et; [|discriminate].
  apply String.eqb_eq in Et. apply String.eqb_neq in Eh.
  intros [= <-]. subst. auto.
Qed.

Lemma match_at_shape h :
  h <> "" -> dot_free h = true -> match_at ("." ++ h ++ ".js") = Some h.
Proof.
  intros Hne Hd. simpl.
  change (h ++ ".js") with (h ++ String "." "js").
  rewrite span_not_dot_app by assumption.
  apply String.eqb_neq in Hne. rewrite Hne. reflexivity.
Qed.

Lemma match_at_count s h : match_at s = Some h -> count_dots s = 2.
Proof.
  intros H. apply match_at_Some in H as (-> & _ & Hd).
  simpl. rewrite count_dots_app, (dot_free_count _ Hd). reflexivity.
Qed.

Lemma regexp_match_Some s h : regexp_match s = Some h -> has_shape s h.
Proof.
  induction s as [|c s IH].
  - simpl. discriminate.
  - cbn [regexp_match]. destruct (match_at (String c s)) as [h0|] eqn:E.
    + intros [= ->]. apply match_at_Some in E as (E & Hne & Hd).
      exists "". auto.
    + intros H. destruct (IH H) as (name & -> & Hne & Hd).
      exists (String c name). auto.
Qed.

Lemma regexp_match_shape s h : has_shape s h -> regexp_match s = Some h.
Proof.
  intros (name & -> & Hne & Hd).
  induction name as [|c name IH].
  - assert (E : match_at ("" ++ "." ++ h ++ ".js") = Some h)
      by now apply match_at_shape.
    simpl in *. now rewrite E.
  - change (String c name ++ "." ++ h ++ ".js")
      with (String c (name ++ "." ++ h ++ ".js")).
    cbn [regexp_match].
    destruct (match_at (String c (name ++ "." ++ h ++ ".js"))) as [h0|] eqn:E;
      [|exact IH].
    exfalso. pose proof (match_at_count _ _ E) as Hc.
    assert (Hdot : c = "."%char).
    { simpl in E. destruct (Ascii.eqb c ".") eqn:Ec; [|discriminate].
      now apply Ascii.eqb_eq. }
    subst c. simpl in Hc.
    rewrite count_dots_app in Hc. simpl in Hc.
    rewrite count_dots_app in Hc. simpl in Hc. lia.
Qed.

(** X13.  The pattern [/\.([^.]+)\.js$/] of [getHash] matches exactly the
    names of the shape [name.hash.js], with a non-empty [hash] without
    dots, and its group is that [hash]. *)
Lemma regexp_match_iff s h : regexp_match s = Some h <-> has_shape s h.
Proof. split; [apply regexp_match_Some|apply regexp_match_shape]. Qed.

Lemma regexp_match_None s :
  regexp_match s = None <-> ~ exists h, has_shape s h.
Proof.
  split.
  - intros H [h Hs]. apply regexp_match_shape in Hs. congruence.
  - intros H. destruct (regexp_match s) as [h|] eqn:E; [|reflexivity].
    exfalso. apply H. exists h. now apply regexp_match_Some.
Qed.

(** *** [JSON.stringify] determines its arguments up to [norm_arg]

    A quoted string can be read back character by character. *)

Lemma unescape_head_escape c r :
  unescape_head (json_escape_char c ++ r) = Some (c, r).
Proof.
  destruct c as [[] [] [] [] [] [] [] []]; reflexivity.
Qed.

Lemma json_escape_prefix s : forall s' r r',
  json_escape s ++ String dquote r = json_escape s' ++ String dquote r' ->
  s = s' /\ r = r'.
Proof.
  induction s as [|c s IH]; intros [|c' s'] r r' H.
  - simpl in H. injection H as ->. auto.
  - exfalso. simpl in H. rewrite append_assoc in H.
    apply (f_equal unescape_head) in H.
    rewrite unescape_head_escape in H. discriminate.
  - exfalso. simpl in H. rewrite append_assoc in H.
    apply (f_equal unescape_head) in H.
    rewrite unescape_head_escape in H. discriminate.
  - simpl in H. rewrite !append_assoc in H.
    apply (f_equal unescape_head) in H.
    rewrite !unescape_head_escape in H.
    injection H as -> H. destruct (IH _ _ _ H) as [-> ->]. auto.
Qed.

Lemma QuoteJSONString_prefix s s' r r' :
  QuoteJSONString s ++ r = QuoteJSONString s' ++ r' -> s = s' /\ r = r'.
Proof.
  unfold QuoteJSONString. simpl. rewrite !append_assoc. simpl.
  intros [= H]. now apply json_escape_prefix.
Qed.

Lemma is_delim_no_digit r : is_delim r = true -> starts_with_digit r = false.
Proof.
  destruct r as [|c r]; [reflexivity|]. simpl.
  destruct (Ascii.eqb c ",") eqn:E1; [apply Ascii.eqb_eq in E1; now subst|].
  destruct (Ascii.eqb c "]") eqn:E2; [apply Ascii.eqb_eq in E2; now subst|].
  destruct (Ascii.eqb c "}") eqn:E3; [apply Ascii.eqb_eq in E3; now subst|].
  discriminate.
Qed.

(** Decimal numerals. *)
Module DecimalText.
Import Decimal.

Lemma uint_prefix d : forall d' r r',
  NilEmpty.string_of_uint d ++ r = NilEmpty.string_of_uint d' ++ r' ->
  starts_with_digit r = false -> starts_with_digit r' = false ->
  d = d' /\ r = r'.
Proof.
  induction d as [|d IH|d IH|d IH|d IH|d IH|d IH|d IH|d IH|d IH|d IH];
    intros [|d'|d'|d'|d'|d'|d'|d'|d'|d'|d'] r r' H Hr Hr'; simpl in H;
    try discriminate H;
    try (injection H as H; destruct (IH _ _ _ H Hr Hr') as [-> ->]; auto);
    try (subst r; discriminate Hr);
    try (subst r'; discriminate Hr').
  auto.
Qed.

Lemma uint_head d r :
  d <> Nil ->
  exists c rest, NilEmpty.string_of_uint d ++ r = String c rest
                 /\ is_digit c = true.
Proof.
  destruct d; [congruence| | | | | | | | | | ]; intros _; simpl; eauto.
Qed.

Lemma to_int_cases n :
  exists u, u <> Nil /\ (Z.to_int n = Pos u \/ Z.to_int n = Neg u).
Proof.
  destruct n as [|p|p]; simpl.
  - exists (D0 Nil). split; [discriminate|auto].
  - exists (Pos.to_uint p). split; [apply DecimalPos.Unsigned.to_uint_nonnil|auto].
  - exists (Pos.to_uint p). split; [apply DecimalPos.Unsigned.to_uint_nonnil|auto].
Qed.

Lemma NilZero_string_of_uint_nonnil u :
  u <> Nil -> NilZero.string_of_uint u = NilEmpty.string_of_uint u.
Proof. destruct u; [congruence| | | | | | | | | | ]; reflexivity. Qed.

Lemma string_of_Z_prefix n n' r r' :
  string_of_Z n ++ r = string_of_Z n' ++ r' ->
  starts_with_digit r = false -> starts_with_digit r' = false ->
  n = n' /\ r = r'.
Proof.
  unfold string_of_Z. intros H Hr Hr'.
  destruct (to_int_cases n) as (u & Hu & E).
  destruct (to_int_cases n') as (u' & Hu' & E').
  assert (Z.to_int n = Z.to_int n' /\ r = r') as [Hi ->].
  { destruct E as [E|E], E' as [E'|E']; rewrite E, E' in H |- *; simpl in H;
      rewrite ?NilZero_string_of_uint_nonnil in H by assumption.
    - destruct (uint_prefix _ _ _ _ H Hr Hr') as [-> ->]. auto.
    - exfalso. destruct (uint_head u r Hu) as (c & rest & Hc & Hd).
      rewrite Hc in H. injection H as -> _. discriminate.
    - exfalso. destruct (uint_head u' r' Hu') as (c & rest & Hc & Hd).
      rewrite Hc in H. injection H as <- _. discriminate.
    - injection H as H.
      destruct (uint_prefix _ _ _ _ H Hr Hr') as [-> ->]. auto. }
  split; [|reflexivity].
  rewrite <- (DecimalZ.of_to n), <- (DecimalZ.of_to n'). now rewrite Hi.
Qed.

Lemma string_of_Z_head n r :
  exists c rest, string_of_Z n ++ r = String c rest
                 /\ (is_digit c || Ascii.eqb c "-") = true.
Proof.
  unfold string_of_Z. destruct (to_int_cases n) as (u & Hu & [E|E]);
    rewrite E; simpl; rewrite NilZero_string_of_uint_nonnil by assumption.
  - destruct (uint_head u r Hu) as (c & rest & Hc & Hd).
    exists c, rest. rewrite Hd. auto.
  - eexists _, _. split; reflexivity.
Qed.

End DecimalText.
Import DecimalText.

(** Comma-separated sequences: the items can be read back one by one. *)

Section SequenceFacts.
Variable A : Type.
Variable ser : A -> string.
Variable close : ascii.
Variable R : A -> A -> Prop.
Variable ok : A -> Prop.

Hypothesis close_delim : forall r, is_delim (String close r) = true.
Hypothesis close_not_comma : close <> ","%char.
Hypothesis ser_head : forall a r,
  ok a -> exists c rest, ser a ++ r = String c rest /\ c <> close.

Lemma concat_seq_text l r :
  String.concat "," (map ser l) ++ String close r = seq_text ser close l r.
Proof.
  destruct l as [|a t]; [reflexivity|]. simpl.
  revert a. induction t as [|b t IH]; intros a; simpl.
  - reflexivity.
  - rewrite append_assoc. simpl. now rewrite IH.
Qed.

Lemma seq_tail_delim l r : is_delim (seq_tail ser close l r) = true.
Proof. destruct l; cbn [seq_tail]; [apply close_delim|reflexivity]. Qed.

Lemma seq_tail_inj l : forall l' r r',
  Forall (item_inj ser R ok) l -> Forall ok l' ->
  seq_tail ser close l r = seq_tail ser close l' r' ->
  Forall2 R l l' /\ r = r'.
Proof.
  induction l as [|a t IH]; intros [|b t'] r r' Hl Hok H; simpl in H.
  - injection H as ->. auto.
  - exfalso. injection H. intros _ Hc. exact (close_not_comma Hc).
  - exfalso. injection H. intros _ Hc. exact (close_not_comma (eq_sym Hc)).
  - injection H as H.
    apply Forall_cons_iff in Hl as [Ha Hl].
    apply Forall_cons_iff in Hok as [Hb Hok].
    destruct (Ha b (seq_tail ser close t r) (seq_tail ser close t' r') Hb H
                (seq_tail_delim _ _) (seq_tail_delim _ _)) as [Hab Ht].
    destruct (IH _ _ _ Hl Hok Ht) as [Hf ->].
    auto.
Qed.

Lemma seq_text_inj l l' r r' :
  Forall (item_inj ser R ok) l -> Forall ok l -> Forall ok l' ->
  seq_text ser close l r = seq_text ser close l' r' ->
  Forall2 R l l' /\ r = r'.
Proof.
  intros Hl Hokl Hok H. destruct l as [|a t], l' as [|b t']; simpl in H.
  - injection H as ->. auto.
  - exfalso. apply Forall_cons_iff in Hok as [Hb Hok].
    destruct (ser_head b (seq_tail ser close t' r') Hb)
      as (c & rest & E & Hc).
    rewrite E in H. congruence.
  - exfalso. apply Forall_cons_iff in Hokl as [Ha Hokl].
    destruct (ser_head a (seq_tail ser close t r) Ha)
      as (c & rest & E & Hc).
    rewrite E in H. congruence.
  - apply Forall_cons_iff in Hl as [Ha Hl].
    apply Forall_cons_iff in Hok as [Hb Hok].
    destruct (Ha b (seq_tail ser close t r) (seq_tail ser close t' r') Hb H
                (seq_tail_delim _ _) (seq_tail_delim _ _)) as [Hab Ht].
    destruct (seq_tail_inj _ _ _ _ Hl Hok Ht) as [Hf ->].
    auto.
Qed.
End SequenceFacts.

(** Induction on a value and on the values inside it. *)

Lemma value_ind' (P : value -> Prop) :
  P VUndefined -> P VNull -> (forall b, P (VBool b)) -> (forall n, P (VNum n)) ->
  (forall s, P (VStr s)) ->
  (forall fields, Forall (fun p => P (snd p)) fields -> P (VObj fields)) ->
  forall v, P v.
Proof.
  intros Hu Hn Hb Hz Hs Ho.
  refine (fix F (v : value) : P v :=
            match v with
            | VUndefined => Hu
            | VNull => Hn
            | VBool b => Hb b
            | VNum n => Hz n
            | VStr s => Hs s
            | VObj fields =>
                Ho fields
                  ((fix G (l : list (string * value))
                      : Forall (fun p => P (snd p)) l :=
                      match l with
                      | [] => Forall_nil _
                      | p :: r => Forall_cons p (F (snd p)) (G r)
                      end) fields)
            end).
Qed.

Lemma SerializeJSONProperty_VObj fields :
  SerializeJSONProperty (VObj fields) =
  Some ("{" ++ String.concat "," (map json_member (present fields)) ++ "}").
Proof.
  simpl.
  match goal with
  | |- Some (String _ (String.concat _ ?X ++ _)) =
       Some (String _ (String.concat _ ?Y ++ _)) =>
      assert (E : X = Y); [|now rewrite E]
  end.
  induction fields as [|[k x] rest IH]; [reflexivity|].
  unfold present in *. cbn [filter snd is_undefined]. rewrite IH.
  unfold json_member, json_element.
  destruct x; reflexivity.
Qed.

Lemma norm_VObj fields :
  norm (VObj fields) = VObj (map norm_member (present fields)).
Proof.
  simpl. f_equal.
  induction fields as [|[k x] rest IH]; [reflexivity|].
  unfold present in *. simpl. rewrite IH. now destruct x.
Qed.

Lemma json_element_VObj fields r :
  json_element (VObj fields) ++ r =
  String "{" (seq_text json_member "}" (present fields) r).
Proof.
  unfold json_element. rewrite SerializeJSONProperty_VObj.
  rewrite <- concat_seq_text. simpl. now rewrite append_assoc.
Qed.

Lemma json_element_head v r :
  v <> VUndefined ->
  exists c rest, json_element v ++ r = String c rest /\ char_kind c = kind v.
Proof.
  destruct v as [| |[]|n|s|fields]; intros Hv; try congruence;
    try (eexists _, _; split; reflexivity).
  - destruct (string_of_Z_head n r) as (c & rest & E & Hc).
    exists c, rest. split; [exact E|].
    unfold char_kind. rewrite Hc.
    destruct (Ascii.eqb c "n") eqn:E1;
      [apply Ascii.eqb_eq in E1; subst; discriminate|].
    destruct (Ascii.eqb c "t") eqn:E2;
      [apply Ascii.eqb_eq in E2; subst; discriminate|].
    destruct (Ascii.eqb c "f") eqn:E3;
      [apply Ascii.eqb_eq in E3; subst; discriminate|].
    reflexivity.
Qed.

Lemma json_element_kind v v' r r' :
  v <> VUndefined -> v' <> VUndefined ->
  json_element v ++ r = json_element v' ++ r' -> kind v = kind v'.
Proof.
  intros Hv Hv' H.
  destruct (json_element_head v r Hv) as (c & rest & E & Hk).
  destruct (json_element_head v' r' Hv') as (c' & rest' & E' & Hk').
  rewrite E, E' in H. injection H as -> _. congruence.
Qed.

Lemma present_ok fields : Forall member_ok (present fields).
Proof.
  unfold present. apply Forall_forall. intros p Hp.
  apply filter_In in Hp as [_ Hp]. unfold member_ok.
  now destruct (snd p).
Qed.

Lemma present_In p fields : In p (present fields) -> In p fields.
Proof. unfold present. intros H. now apply filter_In in H. Qed.

Lemma member_inj p :
  element_inj (snd p) -> member_ok p ->
  item_inj json_member member_rel member_ok p.
Proof.
  intros Hp Hok q r r' Hq H Hr Hr'.
  unfold json_member in H. rewrite !append_assoc in H.
  apply QuoteJSONString_prefix in H as [Hk H].
  simpl in H. injection H as H.
  destruct (Hp Hok _ _ _ Hq H Hr Hr') as [Hn ->].
  split; [split|]; auto.
Qed.

Lemma json_member_head p r :
  exists c rest, json_member p ++ r = String c rest /\ c <> "}"%char.
Proof.
  unfold json_member, QuoteJSONString. simpl.
  eexists _, _. split; [reflexivity|discriminate].
Qed.

Lemma Forall2_member_rel l l' :
  Forall2 member_rel l l' -> map norm_member l = map norm_member l'.
Proof.
  induction 1 as [|[k x] [k' x'] l l' [Hk Hx] _ IH]; [reflexivity|].
  simpl in *. unfold norm_member at 1 3. simpl. congruence.
Qed.

(** The text of a value, followed by a delimiter, determines the value up
    to [norm] and the rest of the text. *)
Lemma json_element_inj v : element_inj v.
Proof.
  induction v as [| |b|n|s|fields IH] using value_ind';
    intros Hv v' r r' Hv' H Hr Hr';
    pose proof (json_element_kind _ _ _ _ Hv Hv' H) as Hk;
    destruct v' as [| |b'|n'|s'|fields']; try congruence;
    try (destruct b); try (destruct b');
    try discriminate Hk; clear Hk.
  - simpl in H. injection H as ->. auto.
  - simpl in H. injection H as ->. auto.
  - simpl in H. injection H as ->. auto.
  - unfold json_element in H. simpl in H.
    apply string_of_Z_prefix in H as [-> ->];
      auto using is_delim_no_digit.
  - unfold json_element in H. simpl in H.
    change (String dquote (json_escape s ++ String dquote ""))
      with (QuoteJSONString s) in H.
    change (String dquote (json_escape s' ++ String dquote ""))
      with (QuoteJSONString s') in H.
    apply QuoteJSONString_prefix in H as [-> ->]. auto.
  - rewrite !json_element_VObj in H. injection H as H.
    apply (seq_text_inj _ json_member "}"%char member_rel member_ok) in H.
    + destruct H as [Hf ->]. split; [|reflexivity].
      rewrite !norm_VObj. f_equal. now apply Forall2_member_rel.
    + reflexivity.
    + discriminate.
    + intros a r0 _. apply json_member_head.
    + apply Forall_forall. intros p Hp. apply member_inj.
      * rewrite Forall_forall in IH. apply IH. now apply present_In.
      * pose proof (present_ok fields) as Hok.
        rewrite Forall_forall in Hok. now apply Hok.
    + apply present_ok.
    + apply present_ok.
Qed.

Lemma json_element_defined v : json_element (defined v) = json_element v.
Proof. now destruct v. Qed.

Lemma norm_defined v : norm (defined v) = norm_arg v.
Proof. now destruct v. Qed.

Lemma defined_not_undefined v : defined v <> VUndefined.
Proof. destruct v; discriminate. Qed.

Lemma argument_inj a :
  item_inj json_element (fun x y => norm_arg x = norm_arg y)
           (fun _ => True) a.
Proof.
  intros b r r' _ H Hr Hr'.
  rewrite <- (json_element_defined a), <- (json_element_defined b) in H.
  destruct (json_element_inj (defined a) (defined_not_undefined a)
              (defined b) r r' (defined_not_undefined b) H Hr Hr') as [Hn ->].
  now rewrite !norm_defined in Hn.
Qed.

Lemma json_element_head_arg a r :
  exists c rest, json_element a ++ r = String c rest /\ c <> "]"%char.
Proof.
  rewrite <- json_element_defined.
  destruct (json_element_head (defined a) r (defined_not_undefined a))
    as (c & rest & E & Hk).
  exists c, rest. split; [exact E|]. intros ->.
  destruct a as [| |[]| | |]; discriminate Hk.
Qed.

Lemma JSON_stringify_seq args :
  JSON_stringify args = String "[" (seq_text json_element "]" args "").
Proof.
  unfold JSON_stringify. rewrite <- concat_seq_text. reflexivity.
Qed.

(** Two argument lists with the same key are the same up to [norm_arg]. *)
Lemma JSON_stringify_inj args args' :
  JSON_stringify args = JSON_stringify args' ->
  map norm_arg args = map norm_arg args'.
Proof.
  rewrite !JSON_stringify_seq. intros [= H].
  apply (seq_text_inj _ json_element "]"%char
           (fun x y => norm_arg x = norm_arg y) (fun _ => True)) in H.
  - destruct H as [Hf _].
    induction Hf as [|x y l l' Hxy _ IH]; simpl; congruence.
  - reflexivity.
  - discriminate.
  - intros a r _. apply json_element_head_arg.
  - apply Forall_forall. intros a _. apply argument_inj.
  - apply Forall_forall. auto.
  - apply Forall_forall. auto.
Qed.

Lemma norm_arg_arg i args args' :
  map norm_arg args = map norm_arg args' ->
  norm_arg (arg i args) = norm_arg (arg i args').
Proof.
  intros H. unfold arg.
  rewrite <- (map_nth norm_arg args VUndefined i).
  rewrite <- (map_nth norm_arg args' VUndefined i).
  now rewrite H.
Qed.

Lemma norm_arg_VStr v s : norm_arg v = VStr s -> v = VStr s.
Proof. destruct v; simpl; try discriminate; auto. Qed.

(** What the functions read of an options object does not see [norm]. *)

Lemma truthy_norm v : truthy (norm v) = truthy v.
Proof. now destruct v. Qed.

Lemma ToString_norm v : ToString (norm v) = ToString v.
Proof. now destruct v. Qed.

Lemma wf_value_cons k x rest :
  wf_value (VObj ((k, x) :: rest)) =
  negb (existsb (fun p => fst p =? k) rest) && wf_value x
  && wf_value (VObj rest).
Proof. reflexivity. Qed.

Lemma lookup_absent k rest :
  existsb (fun p => fst p =? k) rest = false ->
  lookup_field k (map norm_member (present rest)) = VUndefined.
Proof.
  induction rest as [|[k0 x] rest IH]; [reflexivity|]. simpl.
  intros H. apply orb_false_iff in H as [Hk Hr].
  unfold present in *. simpl.
  destruct (is_undefined x); simpl; [auto|].
  rewrite Hk. auto.
Qed.

(** Reading a property commutes with [norm], names being distinct. *)
Lemma lookup_norm k fields :
  wf_value (VObj fields) = true ->
  lookup_field k (map norm_member (present fields))
  = norm (lookup_field k fields).
Proof.
  induction fields as [|[k0 x] rest IH]; [reflexivity|].
  rewrite wf_value_cons. intros H.
  apply andb_true_iff in H as [H Hrest].
  apply andb_true_iff in H as [Hk Hx].
  apply negb_true_iff in Hk.
  unfold present in *. cbn [filter snd lookup_field].
  destruct (is_undefined x) eqn:Eu; cbn [negb].
  - destruct x; try discriminate.
    destruct (k0 =? k) eqn:E.
    + apply String.eqb_eq in E. subst. now apply lookup_absent.
    + now apply IH.
  - cbn [map norm_member fst snd lookup_field].
    destruct (k0 =? k); [reflexivity|]. now apply IH.
Qed.

Lemma option_of_norm o o' k :
  wf_value o = true -> wf_value o' = true ->
  norm_arg o = norm_arg o' ->
  norm (option_of o k) = norm (option_of o' k).
Proof.
  intros Hwf Hwf' H.
  destruct o as [| | | | |fields], o' as [| | | | |fields'];
    try discriminate H; try reflexivity.
  unfold norm_arg in H. rewrite !norm_VObj in H. injection H as H.
  unfold option_of, own_fields.
  rewrite <- !lookup_norm by assumption. now rewrite H.
Qed.

Lemma same_norm_or_else x x' d :
  norm x = norm x' -> ToString (or_else x d) = ToString (or_else x' d).
Proof.
  intros H. unfold or_else.
  rewrite <- (truthy_norm x), <- (truthy_norm x'), H.
  destruct (truthy (norm x')); [|reflexivity].
  rewrite <- (ToString_norm x), <- (ToString_norm x'). now rewrite H.
Qed.

(** [JSON.stringify] does not see [norm_arg]. *)

Lemma is_undefined_norm v : is_undefined (norm v) = is_undefined v.
Proof. now destruct v. Qed.

Lemma json_element_norm v : json_element (norm v) = json_element v.
Proof.
  induction v as [| |b|n|s|fields IH] using value_ind'; try reflexivity.
  unfold json_element.
  rewrite norm_VObj, !SerializeJSONProperty_VObj.
  assert (E : map json_member (present (map norm_member (present fields)))
              = map json_member (present fields)); [|now rewrite E].
  induction IH as [|[k x] rest Hx _ IHrest]; [reflexivity|].
  unfold present in *. cbn [filter snd].
  destruct (is_undefined x) eqn:Eu; cbn [negb]; [exact IHrest|].
  cbn [map filter norm_member snd fst]. rewrite is_undefined_norm, Eu.
  cbn [negb map]. rewrite IHrest. f_equal.
  unfold json_member, norm_member. cbn [fst snd] in *. now rewrite Hx.
Qed.

Lemma json_element_norm_arg v : json_element (norm_arg v) = json_element v.
Proof. destruct v; try reflexivity. apply json_element_norm. Qed.

Lemma JSON_stringify_norm_arg args :
  JSON_stringify (map norm_arg args) = JSON_stringify args.
Proof.
  unfold JSON_stringify. rewrite map_map.
  now rewrite (map_ext _ _ json_element_norm_arg).
Qed.

End JSFacts.

(** ** The resource manager *)

Module ResourceManagerSpec.
Import JS JSFacts ResourceManager.

(** Symbolic execution of a computation: unfold the monad, then split on
    every scrutinee. *)
Ltac unfold_M :=
  unfold bind, lift, ret, throw, read_PROJECT_PATH, write_PROJECT_PATH,
         console_write in *.

(** *** Caches and [memoize] *)

Lemma cache_get_set_same k v c :
  is_primitive k = true -> cache_get k (cache_set k v c) = Some v.
Proof. intros H. simpl. now rewrite same_value_zero_refl. Qed.

Lemma cache_of_with_cache f c s : cache_of f (with_cache f c s) = c.
Proof. now destruct f. Qed.

Lemma cache_of_with_cache_other f g c s :
  f <> g -> cache_of g (with_cache f c s) = cache_of g s.
Proof. destruct f, g; simpl; congruence. Qed.

Lemma extends_refl s : extends s s.
Proof. now intros f k v. Qed.

Lemma extends_trans s1 s2 s3 : extends s1 s2 -> extends s2 s3 -> extends s1 s3.
Proof. intros H1 H2 f k v H. apply H2, H1, H. Qed.

Lemma extends_same_caches s s' :
  (forall f, cache_of f s' = cache_of f s) -> extends s s'.
Proof. intros H f k v. now rewrite H. Qed.

Lemma memoized_eq_dec (f g : memoized) : f = g \/ f <> g.
Proof. destruct f, g; (now left) || (right; discriminate). Qed.

Section Memoize.
Variables (f : memoized) (resolver : list value -> value)
          (func : list value -> M value).

Lemma memoize_hit args s v :
  cache_get (resolver args) (cache_of f s) = Some v ->
  memoize f resolver func args s = (Return v, s).
Proof. intros H. unfold memoize. now rewrite H. Qed.

Lemma memoize_miss args s :
  cache_get (resolver args) (cache_of f s) = None ->
  memoize f resolver func args s =
    match func args s with
    | (Return result, s') =>
        (Return result,
         with_cache f (cache_set (resolver args) result (cache_of f s')) s')
    | (Throw e, s') => (Throw e, s')
    end.
Proof. intros H. unfold memoize. now rewrite H. Qed.

Lemma memoize_fst_miss args s :
  cache_get (resolver args) (cache_of f s) = None ->
  fst (memoize f resolver func args s) = fst (func args s).
Proof.
  intros H. rewrite memoize_miss by assumption.
  now destruct (func args s) as [[r|e] s'].
Qed.

(** What a memoized function returns is in its cache afterwards. *)
Lemma memoize_returns_cached args s v s' :
  is_primitive (resolver args) = true ->
  (forall s0, extends s0 (snd (func args s0))) ->
  memoize f resolver func args s = (Return v, s') ->
  cache_get (resolver args) (cache_of f s') = Some v.
Proof.
  intros Hk Hext. unfold memoize.
  destruct (cache_get (resolver args) (cache_of f s)) as [v0|] eqn:E.
  - intros [= <- <-]. assumption.
  - destruct (func args s) as [[r|e] s1]; intros [= <- <-].
    rewrite cache_of_with_cache. now apply cache_get_set_same.
Qed.

Lemma memoize_extends args s :
  extends s (snd (func args s)) ->
  extends s (snd (memoize f resolver func args s)).
Proof.
  intros Hext. unfold memoize.
  destruct (cache_get (resolver args) (cache_of f s)) as [v0|] eqn:E.
  - apply extends_refl.
  - destruct (func args s) as [[r|e] s1] eqn:E1; simpl in *; [|assumption].
    intros g k v H.
    destruct (memoized_eq_dec f g) as [<-|Hne].
    + rewrite cache_of_with_cache. simpl.
      destruct (same_value_zero (resolver args) k) eqn:Ek.
      * apply same_value_zero_eq in Ek. congruence.
      * now apply Hext.
    + rewrite cache_of_with_cache_other by assumption. now apply Hext.
Qed.
(** The entry stored for [args] does not answer for another key: where
    nothing was cached for [args'], the call is still computed by [func]
    after a call with [args]. *)
Lemma memoize_other_key args args' s :
  same_value_zero (resolver args) (resolver args') = false ->
  (forall s0, cache_of f (snd (func args s0)) = cache_of f s0) ->
  cache_get (resolver args') (cache_of f s) = None ->
  let s1 := snd (memoize f resolver func args s) in
  fst (memoize f resolver func args' s1) = fst (func args' s1).
Proof.
  intros Hk Hown Hnone s1. apply memoize_fst_miss. subst s1.
  unfold memoize.
  destruct (cache_get (resolver args) (cache_of f s)); [exact Hnone|].
  specialize (Hown s).
  destruct (func args s) as [[r|e] s']; simpl in *.
  - rewrite cache_of_with_cache. simpl. rewrite Hk. congruence.
  - congruence.
Qed.
End Memoize.

(** *** A cached result stays cached *)

Lemma getHash_func_extends W args s : extends s (snd (getHash_func W args s)).
Proof.
  unfold getHash_func. unfold_M.
  repeat split_match; simpl;
    apply extends_same_caches; intros [] ; reflexivity.
Qed.

Lemma getHash_extends W args s : extends s (snd (getHash W args s)).
Proof. apply memoize_extends, getHash_func_extends. Qed.

Lemma getResourcePath_func_extends W args s :
  extends s (snd (getResourcePath_func W args s)).
Proof.
  unfold getResourcePath_func. unfold_M.
  repeat match goal with
  | |- context [getHash W ?a ?s] =>
      let H := fresh "Hh" in
      pose proof (getHash_extends W a s) as H;
      destruct (getHash W a s) as [[?|?] ?]
  | |- _ => split_match
  end; simpl in *; try apply extends_refl; try assumption.
Qed.

Lemma getResourcePath_extends W args s :
  extends s (snd (getResourcePath W args s)).
Proof. apply memoize_extends, getResourcePath_func_extends. Qed.

Lemma getProductionStyles_func_extends W args s :
  extends s (snd (getProductionStyles_func W args s)).
Proof.
  unfold getProductionStyles_func. unfold_M.
  repeat match goal with
  | |- context [getResourcePath W ?a ?s] =>
      let H := fresh "Hh" in
      pose proof (getResourcePath_extends W a s) as H;
      destruct (getResourcePath W a s) as [[?|?] ?]
  | |- _ => split_match
  end; simpl in *;
  try (eapply extends_trans; [|eassumption]);
  try (apply extends_same_caches; intros []; reflexivity).
Qed.

Lemma getProductionStyles_extends W args s :
  extends s (snd (getProductionStyles W args s)).
Proof. apply memoize_extends, getProductionStyles_func_extends. Qed.

Lemma run_extends W f args s : extends s (snd (run W f args s)).
Proof.
  destruct f; simpl.
  - apply getResourcePath_extends.
  - apply getHash_extends.
  - apply getProductionStyles_extends.
Qed.

(** No call of an export removes or replaces a cached result. *)
Lemma later_extends W s s' : later W s s' -> extends s s'.
Proof.
  induction 1 as [|s' f args Hl IH Hwf].
  - apply extends_refl.
  - eapply extends_trans; [exact IH|apply run_extends].
Qed.

(** *** The body of an export leaves the export's own cache alone *)

Lemma getHash_func_caches W args s f :
  cache_of f (snd (getHash_func W args s)) = cache_of f s.
Proof.
  unfold getHash_func. unfold_M.
  repeat split_match; destruct f; reflexivity.
Qed.

Lemma getHash_func_resource_cache W args s :
  getResourcePath_cache (snd (getHash_func W args s)) = getResourcePath_cache s.
Proof.
  unfold getHash_func. unfold_M. repeat split_match; reflexivity.
Qed.

Lemma getHash_resource_cache W args s :
  getResourcePath_cache (snd (getHash W args s)) = getResourcePath_cache s.
Proof.
  unfold getHash, memoize.
  pose proof (getHash_func_resource_cache W args s) as H.
  repeat split_match; simpl in *; congruence.
Qed.

Lemma getResourcePath_func_own_cache W args s :
  getResourcePath_cache (snd (getResourcePath_func W args s))
  = getResourcePath_cache s.
Proof.
  unfold getResourcePath_func. unfold_M.
  repeat match goal with
  | |- context [getHash W ?a ?s] =>
      let H := fresh "Hh" in
      pose proof (getHash_resource_cache W a s) as H;
      destruct (getHash W a s) as [[?|?] ?]
  | |- _ => split_match
  end; simpl in *; try reflexivity; assumption.
Qed.

(** C1.  [getResourcePath] is memoized on [JSON.stringify(args)].  Once
    a call has returned the URL [v], every later call whose arguments
    serialize to the same key returns that same [v], whatever the module
    has been called with in between ([later]), and it is answered from the
    cache: the state it leaves is the state it found, so nothing is
    computed again, nothing is logged and [PROJECT_PATH] is not touched.
    The key is the whole tuple: a call whose arguments serialize to
    another key, for which nothing was cached, is not answered from the
    entry of the first call but computed by the body.  The result for
    given inputs is constant from the first return on; a call that throws
    stores nothing. *)
Theorem getResourcePath_memoized W args args' s v s1 s2 :
  getResourcePath W args s = (Return v, s1) ->
  later W s1 s2 ->
  (JSON_stringify args' = JSON_stringify args ->
   getResourcePath W args' s2 = (Return v, s2))
  /\ (JSON_stringify args' <> JSON_stringify args ->
      cache_get (VStr (JSON_stringify args')) (getResourcePath_cache s) = None ->
      fst (getResourcePath W args' s1) = fst (getResourcePath_func W args' s1)).
Proof.
  intros Hfirst Hlater. split.
  - intros Hkey.
    apply memoize_hit.
    apply (later_extends _ _ _ Hlater the_getResourcePath).
    unfold stringify_arguments. rewrite Hkey.
    eapply (memoize_returns_cached the_getResourcePath stringify_arguments).
    + reflexivity.
    + intros s0. apply getResourcePath_func_extends.
    + exact Hfirst.
  - intros Hkey Hnone.
    replace s1 with (snd (getResourcePath W args s)) by now rewrite Hfirst.
    apply (memoize_other_key the_getResourcePath stringify_arguments).
    + apply same_value_zero_neq. unfold stringify_arguments. congruence.
    + intros s0. apply getResourcePath_func_own_cache.
    + exact Hnone.
Qed.

(** In the sample production process: the bundle URL of [app] is computed,
    [getProductionStyles('app')] runs, and the URL is asked for again.
    Asked for the style sheet of [app] after the bundle, the function
    answers the style URL, not the cached bundle URL. *)
Lemma getResourcePath_memoized_witness :
  let W := Sample.production in
  let args := [VStr "bundle"; VStr "app"] in
  let s1 := snd (getResourcePath W args (initial W)) in
  let s2 := snd (run W the_getProductionStyles [VStr "app"] s1) in
  getResourcePath W args s2
  = (Return (VStr "/build/client/app.abc123.js"), s2)
  /\ fst (getResourcePath W [VStr "style"; VStr "app"] s1)
     = Return (VStr "/build/client/app.css").
Proof.
  intros W args s1 s2.
  assert (Hl : later W s1 s2)
    by (apply later_call; [apply later_now|reflexivity]).
  split.
  - apply (getResourcePath_memoized W args args (initial W)
             (VStr "/build/client/app.abc123.js") s1 s2 eq_refl Hl).
    reflexivity.
  - rewrite (proj2 (getResourcePath_memoized W args [VStr "style"; VStr "app"]
                      (initial W) (VStr "/build/client/app.abc123.js") s1 s2
                      eq_refl Hl)).
    + reflexivity.
    + discriminate.
    + reflexivity.
Defined.

(** C1 does not hold as stated: the result for fixed inputs is not
    constant for the lifetime of the process.  A call that throws stores
    nothing, and [PROJECT_PATH] is a variable: in the sample production
    process, [getResourcePath('bundle', 'app')] throws while
    [PROJECT_PATH] points to a project without manifest, and the same call
    returns the URL once another call has set [PROJECT_PATH] back. *)
Lemma getResourcePath_throws_then_returns :
  let W := Sample.production in
  let args := [VStr "bundle"; VStr "app"] in
  let s1 := snd (getProductionStyles W
                   [VStr "app"; VObj [("PROJECT_PATH", VStr "/nowhere")]]
                   (initial W)) in
  let s2 := snd (getResourcePath W args s1) in
  let s3 := snd (getProductionStyles W
                   [VStr "admin"; VObj [("PROJECT_PATH", VStr "/srv/app")]]
                   s2) in
  reachable W s1
  /\ fst (getResourcePath W args s1)
     = Throw (Error "Error loading assets meta file at: /nowhere/build/client/assets.json")
  /\ later W s2 s3
  /\ fst (getResourcePath W args s3)
     = Return (VStr "/build/client/app.abc123.js").
Proof.
  intros W args s1 s2 s3. split; [|split; [|split]].
  - apply (later_call W (initial W) (initial W) the_getProductionStyles);
      [apply later_now|reflexivity].
  - reflexivity.
  - apply (later_call W s2 s2 the_getProductionStyles);
      [apply later_now|reflexivity].
  - reflexivity.
Qed.

(** C9.  [getHash] is memoized on its first argument alone: once
    [getHash(appName, t1, o1)] has returned [v], every later call
    [getHash(appName, t2, o2)] with the same [appName] returns [v] from the
    cache, whatever its type and options are; a later call with type
    ['style'] so returns the cached bundle hash instead of throwing.  And
    the key is [appName]: a call with another [appName], for which nothing
    was cached, is not answered from that entry but computed by the
    body. *)
Theorem getHash_memoized_on_appName W args args' s v s1 s2 :
  getHash W args s = (Return v, s1) ->
  is_primitive (arg 0 args) = true ->
  later W s1 s2 ->
  (arg 0 args' = arg 0 args -> getHash W args' s2 = (Return v, s2))
  /\ (arg 0 args' <> arg 0 args ->
      is_primitive (arg 0 args') = true ->
      cache_get (arg 0 args') (getHash_cache s) = None ->
      fst (getHash W args' s1) = fst (getHash_func W args' s1)).
Proof.
  intros Hfirst Hprim Hlater. split.
  - intros Hkey.
    apply memoize_hit.
    apply (later_extends _ _ _ Hlater the_getHash).
    unfold first_argument. rewrite Hkey.
    eapply (memoize_returns_cached the_getHash first_argument).
    + exact Hprim.
    + intros s0. apply getHash_func_extends.
    + exact Hfirst.
  - intros Hkey _ Hnone.
    replace s1 with (snd (getHash W args s)) by now rewrite Hfirst.
    apply (memoize_other_key the_getHash first_argument).
    + apply same_value_zero_neq. unfold first_argument. congruence.
    + intros s0. apply (getHash_func_caches W args s0 the_getHash).
    + exact Hnone.
Qed.

(** After [getHash('app', 'bundle')], and a call of [getResourcePath] in
    between, [getHash('app', 'style', { PROJECT_PATH: '/srv/next' })]
    answers the bundle hash.  [getHash('admin', 'bundle')] after
    [getHash('app', 'bundle')] does not: the manifest has no [admin]. *)
Lemma getHash_memoized_on_appName_witness :
  let W := Sample.production in
  let s1 := snd (getHash W [VStr "app"; VStr "bundle"] (initial W)) in
  let s2 := snd (run W the_getResourcePath [VStr "style"; VStr "app"] s1) in
  getHash W [VStr "app"; VStr "style";
             VObj [("PROJECT_PATH", VStr "/srv/next")]] s2
  = (Return (VStr "abc123"), s2)
  /\ fst (getHash W [VStr "admin"; VStr "bundle"] s1)
     = Throw (Error "No hash found for 'admin' bundle in /srv/app/build/client/assets.json").
Proof.
  intros W s1 s2.
  assert (Hl : later W s1 s2)
    by (apply later_call; [apply later_now|reflexivity]).
  split.
  - apply (getHash_memoized_on_appName W [VStr "app"; VStr "bundle"]
             [VStr "app"; VStr "style";
              VObj [("PROJECT_PATH", VStr "/srv/next")]]
             (initial W) (VStr "abc123") s1 s2 eq_refl eq_refl Hl).
    reflexivity.
  - rewrite (proj2 (getHash_memoized_on_appName W [VStr "app"; VStr "bundle"]
                      [VStr "admin"; VStr "bundle"]
                      (initial W) (VStr "abc123") s1 s2 eq_refl eq_refl Hl)).
    + reflexivity.
    + discriminate.
    + reflexivity.
    + reflexivity.
Defined.

(** *** The invariant holds in every state of the process *)

Lemma resource_entry_ok_extends W s s' args v :
  extends s s' -> resource_entry_ok W s args v -> resource_entry_ok W s' args v.
Proof.
  intros Hext [H|[(Ht & Hp & hash & Hc & Hv)|H]]; [now left| |now right; right].
  right; left. repeat split; try assumption.
  exists hash. split; [|assumption].
  intros Hprim. apply (Hext the_getHash). auto.
Qed.

Lemma get_prop_default_obj o k x :
  get_prop (default_obj o) k = Return x -> x = option_of o k.
Proof.
  destruct o; simpl; intros H; try discriminate; now injection H as <-.
Qed.

Lemma strict_eq_str_true v lit : strict_eq_str v lit = true -> v = VStr lit.
Proof.
  destruct v; simpl; try discriminate. intros H.
  apply String.eqb_eq in H. now subst.
Qed.

Lemma getHash_Inv W args s : Inv W s -> Inv W (snd (getHash W args s)).
Proof.
  intros HI. split.
  - intros k v Hk. rewrite getHash_resource_cache in Hk.
    destruct HI as [H1 _].
    destruct (H1 k v Hk) as (a & Ha & Hwf & Hok).
    exists a. repeat split; try assumption.
    eapply resource_entry_ok_extends; [apply getHash_extends|eassumption].
  - intros Hnp. destruct HI as [_ H2]. specialize (H2 Hnp).
    unfold getHash, memoize, getHash_func. unfold in_production in Hnp.
    rewrite Hnp. simpl. unfold ret.
    destruct (cache_get _ _) eqn:E; simpl; [assumption|].
    intros k v. destruct (same_value_zero _ k); [congruence|apply H2].
Qed.

Lemma getHash_returns_cached W args s v s' :
  getHash W args s = (Return v, s') ->
  is_primitive (arg 0 args) = true ->
  cache_get (arg 0 args) (getHash_cache s') = Some v.
Proof.
  intros H Hp.
  apply (memoize_returns_cached the_getHash first_argument
           (getHash_func W) args s v s' Hp); [|exact H].
  intros s0. apply getHash_func_extends.
Qed.

Lemma getResourcePath_func_state W args s :
  snd (getResourcePath_func W args s) = s \/
  snd (getResourcePath_func W args s) =
    snd (getHash W [arg 1 args; arg 0 args; default_obj (arg 2 args)] s).
Proof.
  unfold getResourcePath_func. unfold_M.
  repeat split_match; simpl; auto.
Qed.

Lemma getResourcePath_func_Inv W args s :
  Inv W s -> Inv W (snd (getResourcePath_func W args s)).
Proof.
  intros HI. destruct (getResourcePath_func_state W args s) as [-> | ->].
  - assumption.
  - now apply getHash_Inv.
Qed.

(** What the body of [getResourcePath] returns, in the vocabulary of the
    invariant. *)
Lemma getResourcePath_func_returns W args s v s' :
  getResourcePath_func W args s = (Return v, s') ->
  resource_entry_ok W s' args v.
Proof.
  unfold getResourcePath_func, resource_entry_ok. unfold_M.
  destruct (strict_eq_str (arg 0 args) "bundle") eqn:Eb.
  - apply strict_eq_str_true in Eb.
    fold (in_production W).
    destruct (in_production W) eqn:Ep.
    + destruct (get_prop (default_obj (arg 2 args)) "BUILD_REFERENCE_URL")
        as [reference|e] eqn:Er; [|discriminate].
      apply get_prop_default_obj in Er.
      destruct (getHash W _ s) as [[hash|e] s1] eqn:Eh; [|discriminate].
      intros [= <- <-]. right; left. repeat split; try assumption.
      exists hash. split.
      * intros Hp. apply (getHash_returns_cached _ _ _ _ _ Eh Hp).
      * unfold production_bundle_url, str_add. rewrite Er.
        reflexivity.
    + right; right. repeat split; try assumption.
      unfold development_bundle_url, development_server, or_else.
      destruct (truthy (process_env W "DEVSERVER_URL")).
      * injection H as <- <-. reflexivity.
      * destruct (get_prop (default_obj (arg 2 args)) "DEV_PORT")
          as [port|e] eqn:Er; [|discriminate].
        apply get_prop_default_obj in Er.
        injection H as <- <-. rewrite Er. reflexivity.
  - destruct (strict_eq_str (arg 0 args) "style") eqn:Es; [|discriminate].
    apply strict_eq_str_true in Es.
    intros [= <- <-]. left. split; [assumption|].
    unfold style_url, str_add. now rewrite append_assoc.
Qed.

Lemma resource_entry_ok_same_hashes W s s' args v :
  getHash_cache s' = getHash_cache s ->
  resource_entry_ok W s args v -> resource_entry_ok W s' args v.
Proof. unfold resource_entry_ok. intros ->. auto. Qed.

Lemma Inv_same_core W s s' :
  getResourcePath_cache s' = getResourcePath_cache s ->
  getHash_cache s' = getHash_cache s ->
  Inv W s -> Inv W s'.
Proof.
  intros Hr Hh [H1 H2]. split.
  - intros k v Hk. rewrite Hr in Hk.
    destruct (H1 k v Hk) as (a & Ha & Hwf & Hok).
    exists a. repeat split; try assumption.
    eapply resource_entry_ok_same_hashes; eassumption.
  - rewrite Hh. assumption.
Qed.

Lemma getResourcePath_Inv W args s :
  forallb wf_value args = true ->
  Inv W s -> Inv W (snd (getResourcePath W args s)).
Proof.
  intros Hwf HI. unfold getResourcePath, memoize.
  destruct (cache_get _ _) eqn:Eget; [assumption|].
  pose proof (getResourcePath_func_Inv W args s HI) as HI1.
  destruct (getResourcePath_func W args s) as [[v|e] s1] eqn:Ef;
    simpl in *; [|assumption].
  apply getResourcePath_func_returns in Ef.
  destruct HI1 as [H1 H2]. split.
  - intros k v0.
    cbn [snd with_cache getResourcePath_cache cache_of cache_set cache_get].
    destruct (same_value_zero (stringify_arguments args) k) eqn:Ek.
    + apply same_value_zero_eq in Ek. intros [= <-].
      exists args. split; [congruence|]. split; [assumption|].
      eapply resource_entry_ok_same_hashes; [|eassumption]. reflexivity.
    + intros Hk. destruct (H1 k v0 Hk) as (a & Ha & Hwfa & Hok).
      exists a. split; [assumption|]. split; [assumption|].
      eapply resource_entry_ok_same_hashes; [|eassumption]. reflexivity.
  - exact H2.
Qed.

Lemma wf_value_arg i args :
  forallb wf_value args = true -> wf_value (arg i args) = true.
Proof.
  unfold arg. revert i. induction args as [|a args IH]; intros i H.
  - now destruct i.
  - simpl in H. apply andb_true_iff in H as [Ha Hr].
    destruct i; simpl; auto.
Qed.

Lemma wf_value_default_obj v : wf_value v = true -> wf_value (default_obj v) = true.
Proof. now destruct v. Qed.

Lemma getProductionStyles_func_Inv W args s :
  forallb wf_value args = true ->
  Inv W s -> Inv W (snd (getProductionStyles_func W args s)).
Proof.
  intros Hwf HI. unfold getProductionStyles_func. unfold_M.
  destruct (get_prop _ _) as [given|e]; [|assumption]. simpl.
  match goal with
  | |- context [getResourcePath W ?a ?s0] =>
      assert (HI0 : Inv W s0) by (revert HI; apply Inv_same_core; reflexivity);
      assert (Hwf0 : forallb wf_value a = true)
        by (simpl; rewrite wf_value_arg, wf_value_default_obj;
            auto using wf_value_arg);
      pose proof (getResourcePath_Inv W a s0 Hwf0 HI0) as HI1;
      destruct (getResourcePath W a s0) as [[v|e] s1]
  end; simpl in *; [|assumption].
  repeat split_match; simpl; try assumption;
    revert HI1; apply Inv_same_core; reflexivity.
Qed.

Lemma getProductionStyles_Inv W args s :
  forallb wf_value args = true ->
  Inv W s -> Inv W (snd (getProductionStyles W args s)).
Proof.
  intros Hwf HI. unfold getProductionStyles, memoize.
  destruct (cache_get _ _); [assumption|].
  pose proof (getProductionStyles_func_Inv W args s Hwf HI) as HI1.
  destruct (getProductionStyles_func W args s) as [[v|e] s1];
    simpl in *; [|assumption].
  revert HI1; apply Inv_same_core; reflexivity.
Qed.

Lemma run_Inv W f args s :
  forallb wf_value args = true -> Inv W s -> Inv W (snd (run W f args s)).
Proof.
  intros Hwf HI. destruct f; simpl.
  - now apply getResourcePath_Inv.
  - now apply getHash_Inv.
  - now apply getProductionStyles_Inv.
Qed.

Lemma initial_Inv W : Inv W (initial W).
Proof. split; [intros k v|intros _ k v]; discriminate. Qed.

Lemma later_Inv W s s' : Inv W s -> later W s s' -> Inv W s'.
Proof.
  intros HI. induction 1 as [|s' f args Hl IH Hwf]; [assumption|].
  now apply run_Inv.
Qed.

(** The invariant holds in every state of the process. *)
Lemma reachable_Inv W s : reachable W s -> Inv W s.
Proof. apply later_Inv, initial_Inv. Qed.

(** *** [getHash] *)

Lemma in_production_iff W :
  in_production W = true <-> env W "NODE_ENV" = Some "production".
Proof.
  unfold in_production, process_env.
  destruct (env W "NODE_ENV") as [x|]; simpl; split; try discriminate.
  - intros H. apply String.eqb_eq in H. now subst.
  - intros [= ->]. reflexivity.
Qed.

Lemma in_production_false W :
  env W "NODE_ENV" <> Some "production" -> in_production W = false.
Proof.
  intros H. destruct (in_production W) eqn:E; [|reflexivity].
  apply in_production_iff in E. contradiction.
Qed.

Lemma getHash_development W s args :
  Inv W s -> in_production W = false ->
  fst (getHash W args s) = Return VUndefined.
Proof.
  intros [_ H2] Hnp. specialize (H2 Hnp).
  unfold getHash, memoize, getHash_func. unfold in_production in Hnp.
  rewrite Hnp. simpl. unfold ret.
  destruct (cache_get _ _) as [v|] eqn:E; simpl; [|reflexivity].
  f_equal. eapply H2. exact E.
Qed.

(** What [getHash] answers once it gets as far as [require]. *)
Lemma getHash_loads_result W s args path loaded :
  getHash_loads W s args path loaded ->
  fst (getHash W args s) =
    match loaded with
    | None => Throw (Error ("Error loading assets meta file at: " ++ path))
    | Some assetsMeta =>
        hash_of_manifest assetsMeta (arg 0 args) (arg 1 args) path
    end.
Proof.
  intros ((Hp & Ht & _ & Hmiss) & given & project & Hg & Hpr & -> & Hl).
  apply in_production_iff in Hp.
  unfold getHash. rewrite memoize_fst_miss by exact Hmiss.
  unfold getHash_func. unfold in_production in Hp. rewrite Hp, Ht.
  unfold_M. rewrite Hg. cbn [negb PROJECT_PATH]. rewrite Hpr.
  unfold path_join_js. cbn [all_strings]. fold (assetsMetaPath W project).
  rewrite Hl. now destruct loaded as [m|].
Qed.

Lemma hash_of_manifest_bundle assetsMeta appName path filename hash :
  recorded_js assetsMeta (ToString appName) = Some filename ->
  has_shape filename hash ->
  hash_of_manifest assetsMeta appName (VStr "bundle") path = Return (VStr hash).
Proof.
  intros Hr Hs. unfold recorded_js in Hr.
  destruct assetsMeta as [| | | | |apps]; try discriminate.
  destruct (lookup_field (ToString appName) apps) as [| | | | |entry] eqn:Ea;
    try discriminate.
  destruct (lookup_field "js" entry) as [| | | |f|] eqn:Ej; try discriminate.
  injection Hr as ->.
  unfold hash_of_manifest. cbn [strict_eq_str String.eqb Ascii.eqb Bool.eqb truthy get_prop].
  rewrite Ea. cbn [truthy get_prop]. rewrite Ej.
  pose proof Hs as (name & -> & Hne & Hd).
  apply regexp_match_shape in Hs.
  assert (Hf : truthy (VStr (name ++ "." ++ hash ++ ".js")) = true).
  { simpl. destruct name; reflexivity. }
  rewrite Hf. cbn [negb]. rewrite Hs.
  assert (Hh : truthy (VStr hash) = true).
  { simpl. apply String.eqb_neq in Hne. now rewrite Hne. }
  simpl in Hh. now rewrite Hh.
Qed.

(** C3.  In every state of a process that is not in production,
    [getHash] returns [undefined], for every [appName] (and whatever the
    other arguments are).  In production, when the call loads the manifest
    ([getHash_loads]: [appName] is not empty and was not asked for before)
    and the manifest records for [appName] a file name of the shape
    [name.hash.js], [getHash(appName, 'bundle', options)] returns that
    [hash]. *)
Theorem getHash_bundle_hash W s args :
  reachable W s ->
  (env W "NODE_ENV" <> Some "production" ->
   fst (getHash W args s) = Return VUndefined)
  /\ (forall path assetsMeta filename hash,
        getHash_loads W s args path (Some assetsMeta) ->
        arg 1 args = VStr "bundle" ->
        recorded_js assetsMeta (ToString (arg 0 args)) = Some filename ->
        has_shape filename hash ->
        fst (getHash W args s) = Return (VStr hash)).
Proof.
  intros Hr. split.
  - intros Hnp. apply getHash_development.
    + now apply reachable_Inv.
    + now apply in_production_false.
  - intros path assetsMeta filename hash Hl Ht Hrec Hs.
    rewrite (getHash_loads_result _ _ _ _ _ Hl), Ht.
    eapply hash_of_manifest_bundle; eassumption.
Qed.

(** The example of the specification: with the manifest
    [{ app: { js: 'app.abc123.js' } }], [getHash('app', 'bundle')] is
    ['abc123']. *)
Lemma getHash_bundle_hash_witness :
  reachable Sample.production (initial Sample.production)
  /\ fst (getHash Sample.production [VStr "app"; VStr "bundle"]
            (initial Sample.production)) = Return (VStr "abc123").
Proof.
  split; [constructor|].
  refine (proj2 (getHash_bundle_hash Sample.production (initial Sample.production)
                   [VStr "app"; VStr "bundle"] (later_now _ _))
            "/srv/app/build/client/assets.json" Sample.manifest
            "app.abc123.js" "abc123" _ eq_refl eq_refl _).
  - repeat split. exists VUndefined, "/srv/app". repeat split.
  - exists "app". repeat split. discriminate.
Defined.

Lemma strict_eq_str_false v lit : v <> VStr lit -> strict_eq_str v lit = false.
Proof.
  intros H. destruct (strict_eq_str v lit) eqn:E; [|reflexivity].
  apply strict_eq_str_true in E. contradiction.
Qed.

Lemma hash_of_manifest_unknown_type assetsMeta appName type path :
  type <> VStr "bundle" ->
  hash_of_manifest assetsMeta appName type path =
  Throw (Error ("No hash exists for assets of type '" ++ ToString type ++ "'")).
Proof.
  intros H. unfold hash_of_manifest. now rewrite strict_eq_str_false.
Qed.

Lemma getHash_computes_unknown_type W s args :
  getHash_computes W s args ->
  arg 1 args <> VStr "bundle" ->
  exists e, fst (getHash W args s) = Throw e.
Proof.
  intros (Hp & Ht & _ & Hmiss) Hty.
  apply in_production_iff in Hp. unfold in_production in Hp.
  unfold getHash. rewrite memoize_fst_miss by exact Hmiss.
  unfold getHash_func. rewrite Hp, Ht. unfold_M. cbn [negb].
  destruct (get_prop _ _) as [given|e]; [|simpl; eauto]. cbn [PROJECT_PATH].
  destruct (path_join_js _ _) as [path|e]; [|simpl; eauto].
  destruct (require W path) as [m|]; [|simpl; eauto].
  rewrite hash_of_manifest_unknown_type by assumption. simpl. eauto.
Qed.

Lemma hash_of_manifest_bad_filename assetsMeta appName path filename :
  recorded_js assetsMeta (ToString appName) = Some filename ->
  (~ exists hash, has_shape filename hash) ->
  hash_of_manifest assetsMeta appName (VStr "bundle") path
  = Throw (no_hash_error appName path filename).
Proof.
  intros Hr Hs. unfold recorded_js in Hr.
  destruct assetsMeta as [| | | | |apps]; try discriminate.
  destruct (lookup_field (ToString appName) apps) as [| | | | |entry] eqn:Ea;
    try discriminate.
  destruct (lookup_field "js" entry) as [| | | |f|] eqn:Ej; try discriminate.
  injection Hr as ->.
  apply regexp_match_None in Hs.
  unfold hash_of_manifest, no_hash_error.
  cbn [strict_eq_str String.eqb Ascii.eqb Bool.eqb truthy get_prop].
  rewrite Ea. cbn [truthy get_prop]. rewrite Ej, Hs. cbn [truthy].
  destruct (filename =? ""); reflexivity.
Qed.

(** C4, as the code has it.  When [getHash] computes (the process is in
    production, [appName] is not empty, nothing is cached for it), it
    throws on a type other than ['bundle'] (the "No hash exists" error
    once the manifest is loaded), it throws the load error when the
    manifest cannot be loaded, and it throws when the file name recorded
    for the bundle is not of the shape [name.hash.js]. *)
Theorem getHash_fails_fast_when_computed W s args :
  getHash_computes W s args ->
  (arg 1 args <> VStr "bundle" -> exists e, fst (getHash W args s) = Throw e)
  /\ (forall path assetsMeta,
        getHash_loads W s args path (Some assetsMeta) ->
        arg 1 args <> VStr "bundle" ->
        fst (getHash W args s) =
          Throw (Error ("No hash exists for assets of type '"
                        ++ ToString (arg 1 args) ++ "'")))
  /\ (forall path,
        getHash_loads W s args path None ->
        fst (getHash W args s) =
          Throw (Error ("Error loading assets meta file at: " ++ path)))
  /\ (forall path assetsMeta filename,
        getHash_loads W s args path (Some assetsMeta) ->
        arg 1 args = VStr "bundle" ->
        recorded_js assetsMeta (ToString (arg 0 args)) = Some filename ->
        (~ exists hash, has_shape filename hash) ->
        fst (getHash W args s) =
          Throw (no_hash_error (arg 0 args) path filename)).
Proof.
  intros Hc. split; [|split; [|split]].
  - now apply getHash_computes_unknown_type.
  - intros path assetsMeta Hl Hty.
    rewrite (getHash_loads_result _ _ _ _ _ Hl).
    now apply hash_of_manifest_unknown_type.
  - intros path Hl. now rewrite (getHash_loads_result _ _ _ _ _ Hl).
  - intros path assetsMeta filename Hl Hty Hr Hs.
    rewrite (getHash_loads_result _ _ _ _ _ Hl), Hty.
    now apply hash_of_manifest_bad_filename.
Qed.

(** In a fresh production process: [getHash('app', 'style')], then a
    manifest that is not there, then the recorded name [admin.js]. *)
Lemma getHash_fails_fast_when_computed_witness :
  let W := Sample.production in
  let elsewhere := VObj [("PROJECT_PATH", VStr "/nowhere")] in
  let next := VObj [("PROJECT_PATH", VStr "/srv/next")] in
  fst (getHash W [VStr "app"; VStr "style"] (initial W))
  = Throw (Error "No hash exists for assets of type 'style'")
  /\ fst (getHash W [VStr "app"; VStr "bundle"; elsewhere] (initial W))
     = Throw (Error "Error loading assets meta file at: /nowhere/build/client/assets.json")
  /\ fst (getHash W [VStr "admin"; VStr "bundle"; next] (initial W))
     = Throw (Error "No hash in bundle filename. Filename should be in the following format: '[name].[hash].js'").
Proof.
  intros W elsewhere next. split; [|split].
  - refine (proj1 (proj2 (getHash_fails_fast_when_computed W (initial W)
                            [VStr "app"; VStr "style"] _))
              "/srv/app/build/client/assets.json" Sample.manifest _ _).
    + repeat split.
    + repeat split. exists VUndefined, "/srv/app". repeat split.
    + discriminate.
  - refine (proj1 (proj2 (proj2 (getHash_fails_fast_when_computed W (initial W)
                            [VStr "app"; VStr "bundle"; elsewhere] _)))
              "/nowhere/build/client/assets.json" _).
    + repeat split.
    + repeat split. exists (VStr "/nowhere"), "/nowhere". repeat split.
  - refine (proj2 (proj2 (proj2 (getHash_fails_fast_when_computed W (initial W)
                            [VStr "admin"; VStr "bundle"; next] _)))
              "/srv/next/build/client/assets.json" Sample.next_manifest
              "admin.js" _ eq_refl eq_refl _).
    + repeat split.
    + repeat split. exists (VStr "/srv/next"), "/srv/next". repeat split.
    + intros (hash & name & Hn & Hne & Hd).
      apply (f_equal count_dots) in Hn. simpl in Hn.
      rewrite !count_dots_app in Hn. simpl in Hn.
      rewrite count_dots_app in Hn. simpl in Hn. lia.
Defined.

(** C4 does not hold as stated: [getHash] returns a value on an unknown
    type or a missing manifest when the process is not in production
    ([undefined]), when [appName] is empty (['']), and when a hash is
    cached for [appName]. *)
Lemma getHash_returns_without_throwing :
  fst (getHash Sample.development [VStr "app"; VStr "style"]
         (initial Sample.development)) = Return VUndefined
  /\ fst (getHash Sample.development
            [VStr "app"; VStr "bundle"; VObj [("PROJECT_PATH", VStr "/nowhere")]]
            (initial Sample.development)) = Return VUndefined
  /\ fst (getHash Sample.production [VStr ""; VStr "style"]
            (initial Sample.production)) = Return (VStr "")
  /\ fst (getHash Sample.production [VStr "app"; VStr "style"]
            (snd (getHash Sample.production [VStr "app"; VStr "bundle"]
                    (initial Sample.production)))) = Return (VStr "abc123").
Proof. repeat split. Qed.

(** *** [PROJECT_PATH] *)

Lemma option_of_default_obj o k : option_of (default_obj o) k = option_of o k.
Proof. now destruct o. Qed.

Lemma truthy_option_get_prop o k :
  truthy (option_of o k) = true ->
  get_prop (default_obj o) k = Return (option_of o k).
Proof. destruct o; simpl; try discriminate; reflexivity. Qed.

Lemma or_else_truthy a b : truthy a = true -> or_else a b = a.
Proof. unfold or_else. now intros ->. Qed.

Lemma or_else_falsy a b : truthy a = false -> or_else a b = b.
Proof. unfold or_else. now intros ->. Qed.

Lemma getHash_overwrites W s args :
  getHash_computes W s args ->
  truthy (option_of (arg 2 args) "PROJECT_PATH") = true ->
  PROJECT_PATH (snd (getHash W args s)) = option_of (arg 2 args) "PROJECT_PATH".
Proof.
  intros (Hp & Ht & _ & Hmiss) Hg.
  apply in_production_iff in Hp. unfold in_production in Hp.
  unfold getHash. rewrite memoize_miss by exact Hmiss.
  unfold getHash_func. rewrite Hp, Ht. unfold_M. cbn [negb].
  rewrite (truthy_option_get_prop _ _ Hg), (or_else_truthy _ _ Hg).
  cbn [PROJECT_PATH].
  repeat split_match; reflexivity.
Qed.

Lemma get_prop_falsy_option o k given b :
  truthy (option_of o k) = false ->
  get_prop (default_obj o) k = Return given -> or_else given b = b.
Proof.
  intros Hf Hg. apply get_prop_default_obj in Hg. subst.
  now apply or_else_falsy.
Qed.

Lemma getHash_func_keeps_PROJECT_PATH W args s :
  truthy (option_of (arg 2 args) "PROJECT_PATH") = false ->
  PROJECT_PATH (snd (getHash_func W args s)) = PROJECT_PATH s.
Proof.
  intros Hf. unfold getHash_func. unfold_M.
  destruct (negb (strict_eq_str _ _)); [reflexivity|].
  destruct (negb (truthy (arg 0 args))); [reflexivity|].
  destruct (get_prop _ _) as [given|e] eqn:Eg; [|reflexivity].
  rewrite (get_prop_falsy_option _ _ _ _ Hf Eg). cbn [PROJECT_PATH].
  repeat split_match; reflexivity.
Qed.

Lemma memoize_keeps_PROJECT_PATH f resolver func args s :
  PROJECT_PATH (snd (func args s)) = PROJECT_PATH s ->
  PROJECT_PATH (snd (memoize f resolver func args s)) = PROJECT_PATH s.
Proof.
  intros H. unfold memoize.
  destruct (cache_get _ _); [reflexivity|].
  destruct (func args s) as [[v|e] s1]; exact H.
Qed.

Lemma getHash_keeps_PROJECT_PATH W args s :
  truthy (option_of (arg 2 args) "PROJECT_PATH") = false ->
  PROJECT_PATH (snd (getHash W args s)) = PROJECT_PATH s.
Proof.
  intros Hf. apply memoize_keeps_PROJECT_PATH.
  now apply getHash_func_keeps_PROJECT_PATH.
Qed.

Lemma getResourcePath_keeps_PROJECT_PATH W args s :
  truthy (option_of (arg 2 args) "PROJECT_PATH") = false ->
  PROJECT_PATH (snd (getResourcePath W args s)) = PROJECT_PATH s.
Proof.
  intros Hf. apply memoize_keeps_PROJECT_PATH.
  destruct (getResourcePath_func_state W args s) as [-> | ->]; [reflexivity|].
  apply getHash_keeps_PROJECT_PATH.
  change (arg 2 [arg 1 args; arg 0 args; default_obj (arg 2 args)])
    with (default_obj (arg 2 args)).
  now rewrite option_of_default_obj.
Qed.

Lemma getResourcePath_style_keeps_PROJECT_PATH W appName rest s :
  PROJECT_PATH (snd (getResourcePath W (VStr "style" :: appName :: rest) s))
  = PROJECT_PATH s.
Proof.
  apply memoize_keeps_PROJECT_PATH. reflexivity.
Qed.

Lemma getProductionStyles_func_PROJECT_PATH W args s :
  PROJECT_PATH (snd (getProductionStyles_func W args s)) =
  match get_prop (default_obj (arg 1 args)) "PROJECT_PATH" with
  | Return given => or_else given (PROJECT_PATH s)
  | Throw _ => PROJECT_PATH s
  end.
Proof.
  unfold getProductionStyles_func. unfold_M.
  destruct (get_prop _ _) as [given|e]; [|reflexivity].
  match goal with
  | |- context [getResourcePath W (VStr "style" :: ?a :: ?r) ?s0] =>
      pose proof (getResourcePath_style_keeps_PROJECT_PATH W a r s0) as Hk;
      destruct (getResourcePath W (VStr "style" :: a :: r) s0) as [[v|e] s1]
  end; simpl in Hk |- *; [|assumption].
  repeat split_match; simpl; assumption.
Qed.

Lemma getProductionStyles_overwrites W s args :
  getProductionStyles_computes s args ->
  truthy (option_of (arg 1 args) "PROJECT_PATH") = true ->
  PROJECT_PATH (snd (getProductionStyles W args s)) =
  option_of (arg 1 args) "PROJECT_PATH".
Proof.
  intros [_ Hmiss] Hg. unfold getProductionStyles.
  rewrite memoize_miss by exact Hmiss.
  pose proof (getProductionStyles_func_PROJECT_PATH W args s) as H.
  rewrite (truthy_option_get_prop _ _ Hg), (or_else_truthy _ _ Hg) in H.
  destruct (getProductionStyles_func W args s) as [[v|e] s1]; exact H.
Qed.

Lemma getProductionStyles_keeps_PROJECT_PATH W args s :
  truthy (option_of (arg 1 args) "PROJECT_PATH") = false ->
  PROJECT_PATH (snd (getProductionStyles W args s)) = PROJECT_PATH s.
Proof.
  intros Hf. apply memoize_keeps_PROJECT_PATH.
  rewrite getProductionStyles_func_PROJECT_PATH.
  destruct (get_prop _ _) as [given|e] eqn:Eg; [|reflexivity].
  apply (get_prop_falsy_option _ _ _ _ Hf Eg).
Qed.

(** Without [options.PROJECT_PATH], no export writes [PROJECT_PATH]. *)
Lemma run_keeps_PROJECT_PATH W f args s :
  truthy (option_of (options_of f args) "PROJECT_PATH") = false ->
  PROJECT_PATH (snd (run W f args s)) = PROJECT_PATH s.
Proof.
  destruct f; simpl.
  - apply getResourcePath_keeps_PROJECT_PATH.
  - apply getHash_keeps_PROJECT_PATH.
  - apply getProductionStyles_keeps_PROJECT_PATH.
Qed.

Lemma get_prop_not_null o k :
  o <> VNull -> get_prop (default_obj o) k = Return (option_of o k).
Proof. destruct o; simpl; try reflexivity. congruence. Qed.

Lemma getHash_resolves W s args project :
  getHash_computes W s args ->
  arg 2 args <> VNull ->
  truthy (option_of (arg 2 args) "PROJECT_PATH") = false ->
  PROJECT_PATH s = VStr project ->
  getHash_loads W s args (assetsMetaPath W project)
    (require W (assetsMetaPath W project)).
Proof.
  intros Hc Hn Hf Hp. split; [assumption|].
  exists (option_of (arg 2 args) "PROJECT_PATH"), project.
  rewrite (or_else_falsy _ _ Hf).
  auto using get_prop_not_null.
Qed.

Lemma State_eta s :
  {| PROJECT_PATH := PROJECT_PATH s;
     getResourcePath_cache := getResourcePath_cache s;
     getHash_cache := getHash_cache s;
     getProductionStyles_cache := getProductionStyles_cache s;
     console := console s |} = s.
Proof. now destruct s. Qed.

Lemma getProductionStyles_resolves W s args project styleRelPath :
  getProductionStyles_computes s args ->
  arg 1 args <> VNull ->
  truthy (option_of (arg 1 args) "PROJECT_PATH") = false ->
  PROJECT_PATH s = VStr project ->
  fst (getResourcePath W
         [VStr "style"; arg 0 args; default_obj (arg 1 args)] s)
    = Return (VStr styleRelPath) ->
  fst (getProductionStyles W args s) =
  style_at W (path_join W [project; styleRelPath]).
Proof.
  intros [_ Hmiss] Hn Hf Hp Hrel. unfold getProductionStyles.
  rewrite memoize_fst_miss by exact Hmiss.
  unfold getProductionStyles_func. unfold_M.
  rewrite (get_prop_not_null _ _ Hn), (or_else_falsy _ _ Hf), State_eta.
  pose proof (getResourcePath_style_keeps_PROJECT_PATH W (arg 0 args)
                [default_obj (arg 1 args)] s) as Hk.
  destruct (getResourcePath W _ s) as [[v|e] s1]; simpl in Hrel, Hk;
    [|discriminate].
  injection Hrel as ->. rewrite Hk, Hp.
  unfold path_join_js, style_at. cbn [all_strings].
  destruct (existsSync W _); cbn [negb]; [|reflexivity].
  now destruct (readFileSync W _).
Qed.

(** C10, as the code has it.  A call of [getHash] that computes, and a
    call of [getProductionStyles] that is not answered from its cache,
    overwrite [PROJECT_PATH] with a truthy [options.PROJECT_PATH]; a call
    of any export without a truthy [options.PROJECT_PATH] leaves
    [PROJECT_PATH] as it is; and such a call of [getHash] or
    [getProductionStyles], when it computes, resolves its file against
    the [PROJECT_PATH] it finds in the state. *)
Theorem PROJECT_PATH_overwritten_when_computed W s :
  (forall args,
     getHash_computes W s args ->
     truthy (option_of (arg 2 args) "PROJECT_PATH") = true ->
     PROJECT_PATH (snd (getHash W args s))
     = option_of (arg 2 args) "PROJECT_PATH")
  /\ (forall args,
        getProductionStyles_computes s args ->
        truthy (option_of (arg 1 args) "PROJECT_PATH") = true ->
        PROJECT_PATH (snd (getProductionStyles W args s))
        = option_of (arg 1 args) "PROJECT_PATH")
  /\ (forall f args,
        truthy (option_of (options_of f args) "PROJECT_PATH") = false ->
        PROJECT_PATH (snd (run W f args s)) = PROJECT_PATH s)
  /\ (forall args project,
        getHash_computes W s args ->
        arg 2 args <> VNull ->
        truthy (option_of (arg 2 args) "PROJECT_PATH") = false ->
        PROJECT_PATH s = VStr project ->
        fst (getHash W args s) =
          match require W (assetsMetaPath W project) with
          | None =>
              Throw (Error ("Error loading assets meta file at: "
                            ++ assetsMetaPath W project))
          | Some assetsMeta =>
              hash_of_manifest assetsMeta (arg 0 args) (arg 1 args)
                (assetsMetaPath W project)
          end)
  /\ (forall args project styleRelPath,
        getProductionStyles_computes s args ->
        arg 1 args <> VNull ->
        truthy (option_of (arg 1 args) "PROJECT_PATH") = false ->
        PROJECT_PATH s = VStr project ->
        fst (getResourcePath W
               [VStr "style"; arg 0 args; default_obj (arg 1 args)] s)
          = Return (VStr styleRelPath) ->
        fst (getProductionStyles W args s) =
        style_at W (path_join W [project; styleRelPath])).
Proof.
  repeat split.
  - intros args. apply getHash_overwrites.
  - intros args. apply getProductionStyles_overwrites.
  - intros f args. apply run_keeps_PROJECT_PATH.
  - intros args project Hc Hn Hf Hp.
    apply getHash_loads_result. now apply getHash_resolves.
  - intros args project rel. apply getProductionStyles_resolves.
Qed.

(** After [getHash('admin', 'bundle', { PROJECT_PATH: '/srv/next' })] has
    thrown (the recorded name [admin.js] carries no hash), a call without
    [PROJECT_PATH] reads the manifest under [/srv/next]. *)
Lemma PROJECT_PATH_overwritten_when_computed_witness :
  let W := Sample.production in
  let s1 := snd (getHash W [VStr "admin"; VStr "bundle";
                            VObj [("PROJECT_PATH", VStr "/srv/next")]]
                   (initial W)) in
  PROJECT_PATH s1 = VStr "/srv/next"
  /\ fst (getHash W [VStr "app"; VStr "bundle"] s1) = Return (VStr "fedcba").
Proof.
  intros W s1. split.
  - refine (proj1 (PROJECT_PATH_overwritten_when_computed W (initial W))
              [VStr "admin"; VStr "bundle";
               VObj [("PROJECT_PATH", VStr "/srv/next")]] _ eq_refl).
    repeat split.
  - refine (eq_trans
              (proj1 (proj2 (proj2 (proj2
                 (PROJECT_PATH_overwritten_when_computed W s1))))
                 [VStr "app"; VStr "bundle"] "/srv/next" _ _ eq_refl eq_refl)
              eq_refl).
    + repeat split.
    + discriminate.
Defined.

(** C10 does not hold as stated: in production, with a non-empty
    [appName] and [options.PROJECT_PATH] provided, a call of [getHash]
    that is answered from the cache leaves [PROJECT_PATH] as it was. *)
Lemma cached_call_leaves_PROJECT_PATH :
  let W := Sample.production in
  let s1 := snd (getHash W [VStr "app"; VStr "bundle"] (initial W)) in
  let args := [VStr "app"; VStr "bundle";
               VObj [("PROJECT_PATH", VStr "/srv/next")]] in
  env W "NODE_ENV" = Some "production"
  /\ truthy (arg 0 args) = true
  /\ option_of (arg 2 args) "PROJECT_PATH" = VStr "/srv/next"
  /\ PROJECT_PATH (snd (getHash W args s1)) = VStr "/srv/app"
  /\ PROJECT_PATH (snd (getHash W args s1)) <> VStr "/srv/next".
Proof. repeat split. simpl. discriminate. Qed.

(** *** [getResourcePath] *)

Lemma same_key_args args args' :
  stringify_arguments args = stringify_arguments args' ->
  forall i, norm_arg (arg i args) = norm_arg (arg i args').
Proof.
  unfold stringify_arguments. intros H i.
  apply norm_arg_arg, JSON_stringify_inj. congruence.
Qed.

Lemma production_bundle_url_norm W o o' appName hash :
  norm (option_of o "BUILD_REFERENCE_URL")
  = norm (option_of o' "BUILD_REFERENCE_URL") ->
  production_bundle_url W o appName hash
  = production_bundle_url W o' appName hash.
Proof.
  intros H. unfold production_bundle_url.
  now rewrite (same_norm_or_else _ _ _ H).
Qed.

Lemma development_bundle_url_norm W o o' appName :
  norm (option_of o "DEV_PORT") = norm (option_of o' "DEV_PORT") ->
  development_bundle_url W o appName = development_bundle_url W o' appName.
Proof.
  intros H. unfold development_bundle_url, development_server.
  now rewrite (same_norm_or_else _ _ _ H).
Qed.

(** A cached resource path was computed for arguments with the same
    serialization. *)
Lemma cached_resource W s args v :
  Inv W s ->
  cache_get (stringify_arguments args) (getResourcePath_cache s) = Some v ->
  exists args',
    (forall i, norm_arg (arg i args) = norm_arg (arg i args'))
    /\ forallb wf_value args' = true
    /\ resource_entry_ok W s args' v.
Proof.
  intros [H1 _] Hget. destruct (H1 _ _ Hget) as (args' & Hk & Hwf & Hok).
  exists args'. split; [|auto]. now apply same_key_args.
Qed.

(** C6.  In every state of the process, for every type other than
    ['bundle'] and ['style'] and every [appName] and options,
    [getResourcePath] throws the "No resource found" error; it returns no
    URL and leaves the state as it is. *)
Theorem getResourcePath_unknown_type_throws W s args :
  reachable W s ->
  arg 0 args <> VStr "bundle" ->
  arg 0 args <> VStr "style" ->
  getResourcePath W args s =
  (Throw (Error ("No resource found for '" ++ ToString (arg 0 args) ++ "'")), s).
Proof.
  intros Hr Hb Hs. apply reachable_Inv in Hr.
  unfold getResourcePath, memoize.
  destruct (cache_get _ _) as [v|] eqn:Eget.
  - exfalso. destruct (cached_resource _ _ _ _ Hr Eget) as (args' & Hn & _ & Hok).
    specialize (Hn 0).
    destruct Hok as [[Ht _]|[[Ht _]|[Ht _]]]; rewrite Ht in Hn;
      apply norm_arg_VStr in Hn; contradiction.
  - unfold getResourcePath_func.
    rewrite (strict_eq_str_false _ _ Hb), (strict_eq_str_false _ _ Hs).
    reflexivity.
Qed.

(** [getResourcePath('image', 'app')] *)
Lemma getResourcePath_unknown_type_throws_witness :
  getResourcePath Sample.production [VStr "image"; VStr "app"]
    (initial Sample.production)
  = (Throw (Error "No resource found for 'image'"), initial Sample.production).
Proof.
  apply (getResourcePath_unknown_type_throws Sample.production
           (initial Sample.production) [VStr "image"; VStr "app"]).
  - constructor.
  - discriminate.
  - discriminate.
Defined.

(** C5.  In every state of the process and in every environment,
    [getResourcePath('style', appName, ...)] returns
    [BUILD_CLIENT_PATH + appName + '.css']: it does not throw, there is no
    hash in the URL, and the manifest is not consulted ([PROJECT_PATH], the
    cache of [getHash] and the console are as before). *)
Theorem getResourcePath_style_url W s appName rest :
  reachable W s ->
  let result := getResourcePath W (VStr "style" :: VStr appName :: rest) s in
  fst result = Return (VStr (BUILD_CLIENT_PATH W ++ appName ++ ".css"))
  /\ PROJECT_PATH (snd result) = PROJECT_PATH s
  /\ getHash_cache (snd result) = getHash_cache s
  /\ console (snd result) = console s.
Proof.
  intros Hr. apply reachable_Inv in Hr. cbv zeta.
  unfold getResourcePath, memoize.
  destruct (cache_get _ _) as [v|] eqn:Eget.
  - repeat split. simpl. f_equal.
    destruct (cached_resource _ _ _ _ Hr Eget) as (args' & Hn & _ & Hok).
    pose proof (Hn 0) as H0. pose proof (Hn 1) as H1.
    symmetry in H0, H1. apply norm_arg_VStr in H0, H1.
    destruct Hok as [[_ ->]|[[Ht _]|[Ht _]]]; try congruence.
    unfold style_url. now rewrite H1.
  - repeat split. simpl. unfold str_add. simpl.
    now rewrite append_assoc.
Qed.

(** [getResourcePath('style', 'app')] *)
Lemma getResourcePath_style_url_witness :
  let result :=
    getResourcePath Sample.production [VStr "style"; VStr "app"]
      (initial Sample.production) in
  fst result = Return (VStr "/build/client/app.css")
  /\ PROJECT_PATH (snd result) = VStr "/srv/app"
  /\ getHash_cache (snd result) = []
  /\ console (snd result) = [].
Proof.
  apply (getResourcePath_style_url Sample.production (initial Sample.production)
           "app" []).
  constructor.
Defined.

Lemma default_obj_idem o : default_obj (default_obj o) = default_obj o.
Proof. now destruct o. Qed.

Lemma getHash_default_options W appName type o s :
  getHash W [appName; type; default_obj o] s = getHash W [appName; type; o] s.
Proof.
  unfold getHash, memoize, getHash_func, first_argument.
  change (arg 0 [appName; type; default_obj o]) with appName.
  change (arg 0 [appName; type; o]) with appName.
  change (arg 1 [appName; type; default_obj o]) with type.
  change (arg 1 [appName; type; o]) with type.
  change (arg 2 [appName; type; default_obj o]) with (default_obj o).
  change (arg 2 [appName; type; o]) with o.
  now rewrite default_obj_idem.
Qed.

(** C2.  In every state of the process, with [options] an object or
    left out: in production [getResourcePath('bundle', appName, options)]
    is [(options.BUILD_REFERENCE_URL || '') + BUILD_CLIENT_PATH + appName
    + '.' + getHash(appName, 'bundle', options) + '.js'], and throws what
    [getHash] throws; otherwise it is the URL on the development server,
    [DEVSERVER_URL], or [http://localhost:] and the port
    [options.DEV_PORT || DEV_PORT || 3010], then [BUILD_CLIENT_PATH +
    appName + '.js']. *)
Theorem getResourcePath_bundle_url W s appName rest :
  reachable W s ->
  forallb wf_value rest = true ->
  arg 0 rest <> VNull ->
  let options := arg 0 rest in
  let result :=
    fst (getResourcePath W (VStr "bundle" :: VStr appName :: rest) s) in
  (env W "NODE_ENV" = Some "production" ->
   result =
   bundle_url_with W options (VStr appName)
     (fst (getHash W [VStr appName; VStr "bundle"; options] s)))
  /\ (env W "NODE_ENV" <> Some "production" ->
      result = Return (VStr (development_bundle_url W options (VStr appName)))).
Proof.
  intros Hr Hwf Hnull options result. apply reachable_Inv in Hr.
  set (args := VStr "bundle" :: VStr appName :: rest) in *.
  assert (Hopt : arg 2 args = options) by reflexivity.
  assert (Hwfo : wf_value options = true) by now apply wf_value_arg.
  assert (Hcached : forall v,
             cache_get (stringify_arguments args) (getResourcePath_cache s)
             = Some v ->
             exists o',
               norm_arg options = norm_arg o' /\ wf_value o' = true /\
               ((in_production W = true /\
                 exists hash,
                   cache_get (VStr appName) (getHash_cache s) = Some hash /\
                   v = VStr (production_bundle_url W o' (VStr appName) hash))
                \/ (in_production W = false /\
                    v = VStr (development_bundle_url W o' (VStr appName))))).
  { intros v Hget.
    destruct (cached_resource _ _ _ _ Hr Hget) as (args' & Hn & Hwf' & Hok).
    pose proof (Hn 0) as H0. pose proof (Hn 1) as H1. pose proof (Hn 2) as H2.
    symmetry in H0, H1. apply norm_arg_VStr in H0, H1.
    exists (arg 2 args'). split; [exact H2|].
    split; [now apply wf_value_arg|].
    destruct Hok as [[Ht _]|[(_ & Hp & hash & Hc & ->)|(_ & Hp & ->)]].
    - congruence.
    - left. split; [assumption|]. exists hash. rewrite H1 in *.
      split; [now apply Hc|reflexivity].
    - right. rewrite H1. auto. }
  subst result. unfold getResourcePath, memoize.
  destruct (cache_get _ _) as [v|] eqn:Eget.
  - destruct (Hcached v eq_refl) as (o' & Hno & Hwf' & Hcase). cbn [fst].
    split; intros Hp.
    + apply in_production_iff in Hp.
      destruct Hcase as [(_ & hash & Hc & ->)|[Hnp _]]; [|congruence].
      unfold getHash. rewrite (memoize_hit _ _ _ _ _ hash) by exact Hc.
      cbn [fst bundle_url_with]. do 2 f_equal.
      apply production_bundle_url_norm. symmetry.
      now apply option_of_norm.
    + apply in_production_false in Hp.
      destruct Hcase as [[Hpp _]|[_ ->]]; [congruence|].
      do 2 f_equal. apply development_bundle_url_norm. symmetry.
      now apply option_of_norm.
  - clear Hcached. unfold getResourcePath_func.
    change (arg 0 args) with (VStr "bundle").
    change (arg 1 args) with (VStr appName).
    rewrite Hopt.
    cbn [strict_eq_str String.eqb Ascii.eqb Bool.eqb].
    fold (in_production W). unfold_M.
    split; intros Hp.
    + apply in_production_iff in Hp. rewrite Hp.
      rewrite (get_prop_not_null _ _ Hnull).
      rewrite getHash_default_options.
      destruct (getHash W _ s) as [[hash|e] s1]; reflexivity.
    + apply in_production_false in Hp. rewrite Hp.
      unfold development_bundle_url, development_server, or_else.
      destruct (truthy (process_env W "DEVSERVER_URL")); [reflexivity|].
      rewrite (get_prop_not_null _ _ Hnull). reflexivity.
Qed.

(** [getResourcePath('bundle', 'app', options)] in the sample production
    process, with and without a reference URL, and in the sample
    development process, where [DEV_PORT] is 4000, with and without a port
    in the options. *)
Lemma getResourcePath_bundle_url_witness :
  let cdn := VObj [("BUILD_REFERENCE_URL", VStr "https://cdn.example")] in
  let port := VObj [("DEV_PORT", VNum 8080)] in
  fst (getResourcePath Sample.production [VStr "bundle"; VStr "app"]
         (initial Sample.production))
  = Return (VStr "/build/client/app.abc123.js")
  /\ fst (getResourcePath Sample.production [VStr "bundle"; VStr "app"; cdn]
            (initial Sample.production))
     = Return (VStr "https://cdn.example/build/client/app.abc123.js")
  /\ fst (getResourcePath Sample.development [VStr "bundle"; VStr "app"]
            (initial Sample.development))
     = Return (VStr "http://localhost:4000/build/client/app.js")
  /\ fst (getResourcePath Sample.development [VStr "bundle"; VStr "app"; port]
            (initial Sample.development))
     = Return (VStr "http://localhost:8080/build/client/app.js").
Proof.
  intros cdn port. split; [|split; [|split]].
  - refine (eq_trans
              (proj1 (getResourcePath_bundle_url Sample.production
                        (initial Sample.production) "app" []
                        (later_now _ _) eq_refl _) eq_refl)
              eq_refl).
    discriminate.
  - refine (eq_trans
              (proj1 (getResourcePath_bundle_url Sample.production
                        (initial Sample.production) "app" [cdn]
                        (later_now _ _) eq_refl _) eq_refl)
              eq_refl).
    discriminate.
  - refine (proj2 (getResourcePath_bundle_url Sample.development
                     (initial Sample.development) "app" []
                     (later_now _ _) eq_refl _) _);
      discriminate.
  - refine (proj2 (getResourcePath_bundle_url Sample.development
                     (initial Sample.development) "app" [port]
                     (later_now _ _) eq_refl _) _);
      discriminate.
Defined.

(** *** Beyond the specification: the deprecated style sheets, failures
    and the caches *)

Lemma getResourcePath_style_of_Inv W s appName rest :
  Inv W s ->
  fst (getResourcePath W (VStr "style" :: VStr appName :: rest) s)
  = Return (VStr (BUILD_CLIENT_PATH W ++ appName ++ ".css")).
Proof.
  intros Hr. unfold getResourcePath, memoize.
  destruct (cache_get _ _) as [v|] eqn:Eget.
  - simpl. f_equal.
    destruct (cached_resource _ _ _ _ Hr Eget) as (args' & Hn & _ & Hok).
    pose proof (Hn 0) as H0. pose proof (Hn 1) as H1.
    symmetry in H0, H1. apply norm_arg_VStr in H0, H1.
    destruct Hok as [[_ ->]|[[Ht _]|[Ht _]]]; try congruence.
    unfold style_url. now rewrite H1.
  - simpl. unfold str_add. simpl. now rewrite append_assoc.
Qed.

Lemma getResourcePath_style_console W appName rest s :
  console (snd (getResourcePath W (VStr "style" :: appName :: rest) s))
  = console s.
Proof.
  unfold getResourcePath, memoize.
  destruct (cache_get _ _); reflexivity.
Qed.

(** X1.  A call of [getProductionStyles] that is not answered from the
    cache looks for the style sheet at
    [path.join(PROJECT_PATH, BUILD_CLIENT_PATH + appName + '.css')], with
    the project path of the options or else the one in force: it returns
    the file wrapped in [<style>] and logs nothing when the file exists,
    and returns [undefined] after one [console.error] line naming the
    application and the path when it does not. *)
Theorem getProductionStyles_reads_stylesheet W s appName rest project :
  reachable W s ->
  getProductionStyles_computes s (VStr appName :: rest) ->
  arg 0 rest <> VNull ->
  or_else (option_of (arg 0 rest) "PROJECT_PATH") (PROJECT_PATH s)
  = VStr project ->
  let stylePath :=
    path_join W [project; BUILD_CLIENT_PATH W ++ appName ++ ".css"] in
  let result := getProductionStyles W (VStr appName :: rest) s in
  fst result = style_at W stylePath
  /\ console (snd result) =
     (if existsSync W stylePath then console s
      else (console s ++ [("No stylesheets found for '" ++ appName
                           ++ "' at path: " ++ stylePath)%string])%list).
Proof.
  intros Hr [_ Hmiss] Hn Hp stylePath result. apply reachable_Inv in Hr.
  subst result. unfold getProductionStyles.
  rewrite memoize_miss by exact Hmiss.
  unfold getProductionStyles_func. unfold_M.
  change (arg 0 (VStr appName :: rest)) with (VStr appName).
  change (arg 1 (VStr appName :: rest)) with (arg 0 rest).
  rewrite (get_prop_not_null _ _ Hn), Hp.
  match goal with
  | |- context [getResourcePath W ?a ?s0] =>
      assert (HI0 : Inv W s0) by (revert Hr; apply Inv_same_core; reflexivity);
      pose proof (getResourcePath_style_of_Inv W s0 appName
                    [default_obj (arg 0 rest)] HI0) as Hrel;
      pose proof (getResourcePath_style_keeps_PROJECT_PATH W (VStr appName)
                    [default_obj (arg 0 rest)] s0) as Hk;
      pose proof (getResourcePath_style_console W (VStr appName)
                    [default_obj (arg 0 rest)] s0) as Hc;
      destruct (getResourcePath W a s0) as [[v|e] s1]
  end; simpl in Hrel, Hk, Hc; [|discriminate].
  injection Hrel as ->. rewrite Hk.
  unfold path_join_js, style_at. cbn [all_strings]. fold stylePath.
  destruct (existsSync W stylePath); cbn [negb].
  - destruct (readFileSync W stylePath); simpl; auto.
  - simpl. rewrite Hc. auto.
Qed.

Lemma getProductionStyles_reads_stylesheet_witness :
  fst (getProductionStyles Sample.production [VStr "app"]
         (initial Sample.production)) = Return (VStr "<style>body{}</style>")
  /\ (let result := getProductionStyles Sample.production [VStr "admin"]
                      (initial Sample.production) in
      fst result = Return VUndefined
      /\ console (snd result) =
         ["No stylesheets found for 'admin' at path: /srv/app/build/client/admin.css"]).
Proof.
  split.
  - refine (proj1 (getProductionStyles_reads_stylesheet Sample.production
              (initial Sample.production) "app" [] "/srv/app"
              (later_now _ _) _ _ eq_refl)).
    + split; reflexivity.
    + discriminate.
  - refine (getProductionStyles_reads_stylesheet Sample.production
              (initial Sample.production) "admin" [] "/srv/app"
              (later_now _ _) _ _ eq_refl).
    + split; reflexivity.
    + discriminate.
Defined.

Lemma getHash_throw_caches W args s e f :
  fst (getHash W args s) = Throw e ->
  cache_of f (snd (getHash W args s)) = cache_of f s.
Proof.
  unfold getHash, memoize.
  destruct (cache_get _ _); [discriminate|].
  pose proof (getHash_func_caches W args s f) as H.
  destruct (getHash_func W args s) as [[v|e0] s1]; [discriminate|].
  intros _. exact H.
Qed.

Lemma getResourcePath_func_throw_caches W args s e f :
  fst (getResourcePath_func W args s) = Throw e ->
  cache_of f (snd (getResourcePath_func W args s)) = cache_of f s.
Proof.
  unfold getResourcePath_func. unfold_M.
  repeat match goal with
  | |- context [getHash W ?a ?s] =>
      let H := fresh "Hh" in
      pose proof (getHash_throw_caches W a s) as H;
      destruct (getHash W a s) as [[?|?] ?]
  | |- _ => split_match
  end; simpl in *; try discriminate; try reflexivity.
  intros _. eapply Hh. reflexivity.
Qed.

Lemma getResourcePath_throw_caches W args s e f :
  fst (getResourcePath W args s) = Throw e ->
  cache_of f (snd (getResourcePath W args s)) = cache_of f s.
Proof.
  unfold getResourcePath, memoize.
  destruct (cache_get _ _); [discriminate|].
  pose proof (getResourcePath_func_throw_caches W args s) as H.
  destruct (getResourcePath_func W args s) as [[v|e0] s1]; [discriminate|].
  intros _. eapply H. reflexivity.
Qed.

Lemma getResourcePath_styles_cache W args s :
  getProductionStyles_cache (snd (getResourcePath W args s))
  = getProductionStyles_cache s.
Proof.
  unfold getResourcePath, memoize.
  destruct (cache_get _ _); [reflexivity|].
  pose proof (getResourcePath_func_state W args s) as H.
  destruct (getResourcePath_func W args s) as [[v|e0] s1]; simpl in *;
    (destruct H as [-> | ->]; [reflexivity|]);
    unfold getHash, memoize;
    pose proof (getHash_func_caches W
                  [arg 1 args; arg 0 args; default_obj (arg 2 args)] s
                  the_getProductionStyles) as Hc;
    repeat split_match; simpl in *; auto.
Qed.

Lemma getProductionStyles_throw_cache W args s e :
  fst (getProductionStyles W args s) = Throw e ->
  getProductionStyles_cache (snd (getProductionStyles W args s))
  = getProductionStyles_cache s.
Proof.
  unfold getProductionStyles, memoize.
  destruct (cache_get _ _); [discriminate|].
  destruct (getProductionStyles_func W args s) as [[v|e0] s1] eqn:E;
    [discriminate|].
  intros _. simpl.
  change s1 with (snd (Throw (A:=value) e0, s1)). rewrite <- E.
  unfold getProductionStyles_func. unfold_M.
  destruct (get_prop _ _); [|reflexivity]. simpl.
  match goal with
  | |- context [getResourcePath W ?a ?s0] =>
      pose proof (getResourcePath_styles_cache W a s0) as Hk;
      destruct (getResourcePath W a s0) as [[?|?] ?]
  end; simpl in Hk |- *; [|assumption].
  repeat split_match; simpl; assumption.
Qed.

Lemma getProductionStyles_func_own_cache W args s :
  getProductionStyles_cache (snd (getProductionStyles_func W args s))
  = getProductionStyles_cache s.
Proof.
  unfold getProductionStyles_func. unfold_M.
  destruct (get_prop _ _); [|reflexivity]. simpl.
  match goal with
  | |- context [getResourcePath W ?a ?s0] =>
      pose proof (getResourcePath_styles_cache W a s0) as Hk;
      destruct (getResourcePath W a s0) as [[?|?] ?]
  end; simpl in Hk |- *; [|assumption].
  repeat split_match; simpl; assumption.
Qed.

(** X2.  [getProductionStyles] is memoized on [appName] alone: once a
    call has returned, every later call with the same [appName] returns
    the same result and changes nothing, whatever its options.  The
    [undefined] of a missing style sheet is cached like any other
    result.  And the key is [appName]: a call with another [appName], for
    which nothing was cached, is not answered from that entry but computed
    by the body. *)
Theorem getProductionStyles_memoized_on_appName W args args' s v s1 s2 :
  getProductionStyles W args s = (Return v, s1) ->
  is_primitive (arg 0 args) = true ->
  later W s1 s2 ->
  (arg 0 args' = arg 0 args -> getProductionStyles W args' s2 = (Return v, s2))
  /\ (arg 0 args' <> arg 0 args ->
      is_primitive (arg 0 args') = true ->
      cache_get (arg 0 args') (getProductionStyles_cache s) = None ->
      fst (getProductionStyles W args' s1)
      = fst (getProductionStyles_func W args' s1)).
Proof.
  intros Hfirst Hprim Hlater. split.
  - intros Hkey.
    apply memoize_hit.
    apply (later_extends _ _ _ Hlater the_getProductionStyles).
    unfold first_argument. rewrite Hkey.
    eapply (memoize_returns_cached the_getProductionStyles first_argument).
    + exact Hprim.
    + intros s0. apply getProductionStyles_func_extends.
    + exact Hfirst.
  - intros Hkey _ Hnone.
    replace s1 with (snd (getProductionStyles W args s))
      by now rewrite Hfirst.
    apply (memoize_other_key the_getProductionStyles first_argument).
    + apply same_value_zero_neq. unfold first_argument. congruence.
    + intros s0. apply getProductionStyles_func_own_cache.
    + exact Hnone.
Qed.

(** The [undefined] cached for [admin] is returned even when the options
    point to the build that has its style sheet; after a call for [other],
    the style sheet of [admin] is read, not answered from that entry. *)
Lemma getProductionStyles_memoized_on_appName_witness :
  let W := Sample.staged in
  let s1 := snd (getProductionStyles W [VStr "admin"] (initial W)) in
  let s1' := snd (getProductionStyles W [VStr "other"] (initial W)) in
  let next := VObj [("PROJECT_PATH", VStr "/srv/next")] in
  getProductionStyles W [VStr "admin"; next] s1 = (Return VUndefined, s1)
  /\ fst (getProductionStyles W [VStr "other"] (initial W))
     = Return VUndefined
  /\ fst (getProductionStyles W [VStr "admin"; next] s1')
     = Return (VStr "<style>h1{}</style>").
Proof.
  intros W s1 s1' next. split; [|split; [reflexivity|]].
  - apply (getProductionStyles_memoized_on_appName W [VStr "admin"]
             [VStr "admin"; next] (initial W) VUndefined s1 s1
             eq_refl eq_refl (later_now _ _)).
    reflexivity.
  - rewrite (proj2 (getProductionStyles_memoized_on_appName W [VStr "other"]
                      [VStr "admin"; next] (initial W) VUndefined s1' s1'
                      eq_refl eq_refl (later_now _ _))).
    + reflexivity.
    + discriminate.
    + reflexivity.
    + reflexivity.
Defined.

(** X3.  A call that throws caches nothing: after a failed [getHash] or
    [getResourcePath] the three caches are what they were, and a failed
    [getProductionStyles] leaves its own cache as it was. *)
Theorem failed_call_caches_nothing W args s e :
  (fst (getHash W args s) = Throw e ->
   forall f, cache_of f (snd (getHash W args s)) = cache_of f s)
  /\ (fst (getResourcePath W args s) = Throw e ->
      forall f, cache_of f (snd (getResourcePath W args s)) = cache_of f s)
  /\ (fst (getProductionStyles W args s) = Throw e ->
      getProductionStyles_cache (snd (getProductionStyles W args s))
      = getProductionStyles_cache s).
Proof.
  split; [|split].
  - intros H f. now apply (getHash_throw_caches W args s e).
  - intros H f. now apply (getResourcePath_throw_caches W args s e).
  - apply getProductionStyles_throw_cache.
Qed.

Lemma failed_call_caches_nothing_witness :
  let W := Sample.production in
  let args := [VStr "bundle"; VStr "admin";
               VObj [("PROJECT_PATH", VStr "/srv/next")]] in
  let e := Error "No hash in bundle filename. Filename should be in the following format: '[name].[hash].js'" in
  fst (getResourcePath W args (initial W)) = Throw e
  /\ forall f, cache_of f (snd (getResourcePath W args (initial W)))
               = cache_of f (initial W).
Proof.
  intros W args e. split; [reflexivity|].
  exact (proj1 (proj2 (failed_call_caches_nothing W args (initial W) e))
           eq_refl).
Defined.

Lemma getResourcePath_style_hashes W appName rest s :
  getHash_cache (snd (getResourcePath W (VStr "style" :: appName :: rest) s))
  = getHash_cache s.
Proof.
  unfold getResourcePath, memoize.
  destruct (cache_get _ _); reflexivity.
Qed.

Lemma getHash_cache_step_getHash W args s :
  getHash_cache (snd (getHash W args s)) = getHash_cache s
  \/ exists s0 v s1,
       getHash_func W args s0 = (Return v, s1)
       /\ getHash_cache (snd (getHash W args s))
          = (arg 0 args, v) :: getHash_cache s.
Proof.
  unfold getHash, memoize.
  destruct (cache_get _ _); [now left|].
  pose proof (getHash_func_caches W args s the_getHash) as Hc.
  destruct (getHash_func W args s) as [[v|e] s1] eqn:E; simpl in *.
  - right. exists s, v, s1. split; [assumption|].
    unfold cache_set, first_argument. now rewrite Hc.
  - now left.
Qed.

Lemma getHash_cache_step W f args s :
  getHash_cache (snd (run W f args s)) = getHash_cache s
  \/ exists a s0 v s1,
       getHash_func W a s0 = (Return v, s1)
       /\ getHash_cache (snd (run W f args s))
          = (arg 0 a, v) :: getHash_cache s.
Proof.
  destruct f; simpl.
  - unfold getResourcePath, memoize.
    destruct (cache_get _ _); [now left|].
    assert (H : getHash_cache (snd (getResourcePath_func W args s))
                = getHash_cache s
                \/ exists a s0 v s1,
                     getHash_func W a s0 = (Return v, s1)
                     /\ getHash_cache (snd (getResourcePath_func W args s))
                        = (arg 0 a, v) :: getHash_cache s).
    { destruct (getResourcePath_func_state W args s) as [-> | ->];
        [now left|].
      destruct (getHash_cache_step_getHash W
                  [arg 1 args; arg 0 args; default_obj (arg 2 args)] s)
        as [Hs|(s0 & v0 & s2 & Hf & Hs)]; [now left|].
      right.
      exists [arg 1 args; arg 0 args; default_obj (arg 2 args)], s0, v0, s2.
      auto. }
    destruct (getResourcePath_func W args s) as [[v|e0] s1]; exact H.
  - destruct (getHash_cache_step_getHash W args s)
      as [Hs|(s0 & v0 & s2 & Hf & Hs)]; [now left|].
    right. exists args, s0, v0, s2. auto.
  - left. unfold getProductionStyles, memoize.
    destruct (cache_get _ _); [reflexivity|].
    assert (H : getHash_cache (snd (getProductionStyles_func W args s))
                = getHash_cache s).
    { unfold getProductionStyles_func. unfold_M.
      destruct (get_prop _ _); [|reflexivity]. simpl.
      match goal with
      | |- context [getResourcePath W (VStr "style" :: ?a :: ?r) ?s0] =>
          pose proof (getResourcePath_style_hashes W a r s0) as Hk;
          destruct (getResourcePath W (VStr "style" :: a :: r) s0)
            as [[?|?] ?]
      end; simpl in Hk |- *; [|assumption].
      repeat split_match; simpl; assumption. }
    destruct (getProductionStyles_func W args s) as [[v|e0] s1]; exact H.
Qed.

(** Whatever holds of every result of the body of [getHash] holds of every
    cached hash. *)
Lemma getHash_cache_entries W (Q : value -> value -> Prop) :
  (forall a s0 v s1, getHash_func W a s0 = (Return v, s1) -> Q (arg 0 a) v) ->
  forall s, reachable W s ->
  forall k v, cache_get k (getHash_cache s) = Some v -> Q k v.
Proof.
  intros HQ s Hr. unfold reachable in Hr.
  induction Hr as [|s' f args Hl IH Hwf]; intros k v.
  - discriminate.
  - destruct (getHash_cache_step W f args s')
      as [->|(a & s0 & v0 & s1 & Hf & ->)]; [apply IH|].
    simpl. destruct (same_value_zero (arg 0 a) k) eqn:E.
    + apply same_value_zero_eq in E. subst k. intros [= <-].
      eapply HQ; eassumption.
    + apply IH.
Qed.

Lemma getHash_returns_of_body W (Q : value -> value -> Prop) :
  (forall a s0 v s1, getHash_func W a s0 = (Return v, s1) -> Q (arg 0 a) v) ->
  forall s args v, reachable W s ->
  fst (getHash W args s) = Return v -> Q (arg 0 args) v.
Proof.
  intros HQ s args v Hr. unfold getHash, memoize.
  destruct (cache_get _ _) as [v0|] eqn:E.
  - intros [= <-]. eapply getHash_cache_entries; eassumption.
  - destruct (getHash_func W args s) as [[v0|e] s1] eqn:Ef; [|discriminate].
    intros [= <-]. eapply HQ; eassumption.
Qed.

Lemma hash_of_manifest_Return assetsMeta appName type path v :
  hash_of_manifest assetsMeta appName type path = Return v ->
  exists filename hash,
    recorded_js assetsMeta (ToString appName) = Some filename
    /\ has_shape filename hash /\ v = VStr hash.
Proof.
  unfold hash_of_manifest, recorded_js.
  destruct (strict_eq_str type "bundle"); [|discriminate].
  destruct assetsMeta as [| |[]|n|s|apps]; simpl; try discriminate.
  - destruct (n =? 0)%Z eqn:E; simpl; rewrite ?E; discriminate.
  - destruct (s =? "") eqn:E; simpl; rewrite ?E; discriminate.
  - destruct (lookup_field (ToString appName) apps) as [| |[]|n|s|entry];
      simpl; try discriminate.
    + destruct (n =? 0)%Z eqn:E; simpl; rewrite ?E; discriminate.
    + destruct (s =? "") eqn:E; simpl; rewrite ?E; discriminate.
    + destruct (lookup_field "js" entry) as [| |[]|n|f|o];
        simpl; try discriminate.
      * destruct (n =? 0)%Z eqn:E; simpl; discriminate.
      * destruct (f =? ""); simpl; [discriminate|].
        destruct (regexp_match f) as [h|] eqn:Em; [|discriminate].
        destruct (h =? ""); simpl; [discriminate|].
        intros [= <-]. exists f, h. repeat split.
        now apply regexp_match_Some.
Qed.

Lemma getHash_func_sound W a s0 v s1 :
  in_production W = true ->
  getHash_func W a s0 = (Return v, s1) -> hash_entry_ok W (arg 0 a) v.
Proof.
  intros Hp. unfold getHash_func. unfold in_production in Hp. rewrite Hp.
  cbn [negb]. unfold_M.
  destruct (truthy (arg 0 a)) eqn:Et; cbn [negb].
  - destruct (get_prop _ _) as [given|e]; [|discriminate]. cbn [PROJECT_PATH].
    unfold path_join_js. cbn [all_strings].
    destruct (or_else given (PROJECT_PATH s0)) as [| | | |project|];
      try discriminate.
    fold (assetsMetaPath W project).
    destruct (require W (assetsMetaPath W project)) as [m|] eqn:Er;
      [|discriminate].
    destruct (hash_of_manifest m (arg 0 a) (arg 1 a) (assetsMetaPath W project))
      as [v0|e] eqn:Eh; [|discriminate].
    intros [= <- _]. right. split; [exact Et|].
    destruct (hash_of_manifest_Return _ _ _ _ _ Eh) as (f & h & Hf & Hs & ->).
    exists project, m, f, h. auto.
  - intros [= <- _]. left. auto.
Qed.

(** X4.  In production every hash [getHash] returns, computed or cached,
    is the empty string for an empty [appName], and otherwise the hash
    part of a file name [name.hash.js] that the manifest of some project
    path records as the [js] of [appName]. *)
Theorem getHash_production_sound W s args v :
  reachable W s ->
  env W "NODE_ENV" = Some "production" ->
  fst (getHash W args s) = Return v ->
  hash_entry_ok W (arg 0 args) v.
Proof.
  intros Hr Hp Hv. apply in_production_iff in Hp.
  apply (getHash_returns_of_body W (hash_entry_ok W)) with (s := s);
    try assumption.
  intros a s0 v0 s1. now apply getHash_func_sound.
Qed.

Lemma getHash_production_sound_witness :
  hash_entry_ok Sample.production (VStr "app") (VStr "abc123").
Proof.
  exact (getHash_production_sound Sample.production
           (initial Sample.production) [VStr "app"; VStr "bundle"]
           (VStr "abc123") (later_now _ _) eq_refl eq_refl).
Defined.

(** X5.  In production [getHash] answers an empty [appName] with the
    empty string, whatever the type and the options, and writes neither
    [PROJECT_PATH] nor the console. *)
Theorem getHash_empty_appName W s args :
  reachable W s ->
  env W "NODE_ENV" = Some "production" ->
  truthy (arg 0 args) = false ->
  let result := getHash W args s in
  fst result = Return (VStr "")
  /\ PROJECT_PATH (snd result) = PROJECT_PATH s
  /\ console (snd result) = console s.
Proof.
  intros Hr Hp Ht result. subst result. apply in_production_iff in Hp.
  unfold getHash, memoize.
  destruct (cache_get _ _) as [v|] eqn:E.
  - repeat split. simpl. f_equal.
    assert (H : hash_entry_ok W (first_argument args) v).
    { apply (getHash_cache_entries W (hash_entry_ok W)) with (s := s);
        try assumption.
      intros a s0 v0 s1. now apply getHash_func_sound. }
    unfold first_argument in H.
    destruct H as [[_ ->]|[Ht' _]]; [reflexivity|congruence].
  - unfold getHash_func. unfold in_production in Hp. rewrite Hp, Ht.
    repeat split.
Qed.

Lemma getHash_empty_appName_witness :
  let W := Sample.production in
  let result :=
    getHash W [VStr ""; VStr "style";
               VObj [("PROJECT_PATH", VStr "/srv/next")]] (initial W) in
  fst result = Return (VStr "")
  /\ PROJECT_PATH (snd result) = VStr "/srv/app"
  /\ console (snd result) = [].
Proof.
  intros W.
  exact (getHash_empty_appName W (initial W)
           [VStr ""; VStr "style"; VObj [("PROJECT_PATH", VStr "/srv/next")]]
           (later_now _ _) eq_refl eq_refl).
Defined.

(** X6.  Outside production [getHash] never throws, and neither
    [getHash] nor [getResourcePath] writes [PROJECT_PATH] or the console,
    whatever the options; [getResourcePath] does not fill the cache of
    [getHash] either. *)
Theorem development_writes_nothing W s args :
  env W "NODE_ENV" <> Some "production" ->
  let h := getHash W args s in
  let r := getResourcePath W args s in
  (exists v, fst h = Return v)
  /\ PROJECT_PATH (snd h) = PROJECT_PATH s
  /\ console (snd h) = console s
  /\ PROJECT_PATH (snd r) = PROJECT_PATH s
  /\ console (snd r) = console s
  /\ getHash_cache (snd r) = getHash_cache s.
Proof.
  intros Hp h r. subst h r. apply in_production_false in Hp.
  unfold in_production in Hp.
  split; [|split; [|split]].
  - unfold getHash, memoize, getHash_func. rewrite Hp. simpl.
    destruct (cache_get _ _); simpl; eauto.
  - unfold getHash, memoize, getHash_func. rewrite Hp. simpl.
    destruct (cache_get _ _); reflexivity.
  - unfold getHash, memoize, getHash_func. rewrite Hp. simpl.
    destruct (cache_get _ _); reflexivity.
  - unfold getResourcePath, memoize, getResourcePath_func. rewrite Hp.
    unfold_M.
    destruct (cache_get _ _); [repeat split|].
    repeat split_match; repeat split.
Qed.

Lemma development_writes_nothing_witness :
  let W := Sample.development in
  let args := [VStr "app"; VStr "bundle";
               VObj [("PROJECT_PATH", VStr "/srv/next")]] in
  PROJECT_PATH (snd (getHash W args (initial W))) = VStr "/srv/app".
Proof.
  intros W args.
  refine (proj1 (proj2 (development_writes_nothing W (initial W) args _))).
  discriminate.
Defined.

(** X7.  Outside production, with [DEVSERVER_URL] set, the URL of a
    bundle is [DEVSERVER_URL + BUILD_CLIENT_PATH + appName + '.js']: the
    options are not read, [DEV_PORT] plays no part, and an options
    argument of [null] does no harm. *)
Theorem DEVSERVER_URL_overrides_options W s appName rest server :
  reachable W s ->
  env W "NODE_ENV" <> Some "production" ->
  env W "DEVSERVER_URL" = Some server ->
  server <> "" ->
  fst (getResourcePath W (VStr "bundle" :: VStr appName :: rest) s)
  = Return (VStr (server ++ BUILD_CLIENT_PATH W ++ appName ++ ".js")).
Proof.
  intros Hr Hp Hd Hne. apply reachable_Inv in Hr.
  apply in_production_false in Hp.
  assert (Hs : process_env W "DEVSERVER_URL" = VStr server)
    by (unfold process_env; now rewrite Hd).
  assert (Ht : truthy (VStr server) = true)
    by (simpl; apply String.eqb_neq in Hne; now rewrite Hne).
  unfold getResourcePath, memoize.
  destruct (cache_get _ _) as [v|] eqn:Eget.
  - simpl. f_equal.
    destruct (cached_resource _ _ _ _ Hr Eget) as (args' & Hn & _ & Hok).
    pose proof (Hn 0) as H0. pose proof (Hn 1) as H1.
    symmetry in H0, H1. apply norm_arg_VStr in H0, H1.
    destruct Hok as [[Hty _]|[(_ & Hpp & _)|(_ & _ & ->)]]; try congruence.
    unfold development_bundle_url, development_server, or_else.
    now rewrite H1, Hs, Ht.
  - unfold getResourcePath_func.
    change (arg 0 (VStr "bundle" :: VStr appName :: rest)) with (VStr "bundle").
    change (arg 1 (VStr "bundle" :: VStr appName :: rest)) with (VStr appName).
    cbn [strict_eq_str String.eqb Ascii.eqb Bool.eqb].
    fold (in_production W). rewrite Hp, Hs, Ht. reflexivity.
Qed.

Lemma DEVSERVER_URL_overrides_options_witness :
  fst (getResourcePath Sample.proxied [VStr "bundle"; VStr "app"; VNull]
         (initial Sample.proxied))
  = Return (VStr "https://dev.example/build/client/app.js").
Proof.
  refine (DEVSERVER_URL_overrides_options Sample.proxied (initial Sample.proxied) "app"
            [VNull] "https://dev.example" (later_now _ _) _ eq_refl _);
    discriminate.
Defined.

Lemma resource_entry_ok_suffix W s args v :
  resource_entry_ok W s args v ->
  (arg 0 args = VStr "bundle" /\ exists u, v = VStr (u ++ ".js"))
  \/ (arg 0 args = VStr "style" /\ exists u, v = VStr (u ++ ".css")).
Proof.
  intros [[Ht ->]|[(Ht & _ & hash & _ & ->)|(Ht & _ & ->)]].
  - right. split; [assumption|]. unfold style_url.
    eexists. now rewrite <- append_assoc.
  - left. split; [assumption|]. unfold production_bundle_url.
    eexists. now rewrite <- !append_assoc.
  - left. split; [assumption|]. unfold development_bundle_url.
    eexists. now rewrite <- !append_assoc.
Qed.

(** X8.  Whatever [getResourcePath] returns is the URL of its type: the
    type is ['bundle'] and the URL ends in [.js], or the type is ['style']
    and the URL ends in [.css].  The placeholder ['ERROR_EMPTY'] is never
    returned. *)
Theorem getResourcePath_extension W s args v :
  reachable W s ->
  fst (getResourcePath W args s) = Return v ->
  (arg 0 args = VStr "bundle" /\ exists u, v = VStr (u ++ ".js"))
  \/ (arg 0 args = VStr "style" /\ exists u, v = VStr (u ++ ".css")).
Proof.
  intros Hr. apply reachable_Inv in Hr.
  unfold getResourcePath, memoize.
  destruct (cache_get _ _) as [v0|] eqn:Eget.
  - intros [= <-].
    destruct (cached_resource _ _ _ _ Hr Eget) as (args' & Hn & _ & Hok).
    specialize (Hn 0).
    destruct (resource_entry_ok_suffix _ _ _ _ Hok) as [[Ht Hu]|[Ht Hu]];
      rewrite Ht in Hn; apply norm_arg_VStr in Hn; auto.
  - destruct (getResourcePath_func W args s) as [[v0|e] s1] eqn:Ef;
      [|discriminate].
    intros [= <-]. apply getResourcePath_func_returns in Ef.
    eapply resource_entry_ok_suffix; eassumption.
Qed.

Lemma getResourcePath_extension_witness :
  (VStr "bundle" = VStr "bundle"
   /\ exists u, VStr "/build/client/app.abc123.js" = VStr (u ++ ".js"))
  \/ (VStr "bundle" = VStr "style"
      /\ exists u, VStr "/build/client/app.abc123.js" = VStr (u ++ ".css")).
Proof.
  exact (getResourcePath_extension Sample.production
           (initial Sample.production) [VStr "bundle"; VStr "app"]
           (VStr "/build/client/app.abc123.js") (later_now _ _) eq_refl).
Defined.

Lemma truthy_or_else a b : truthy b = true -> truthy (or_else a b) = true.
Proof. unfold or_else. destruct (truthy a) eqn:E; auto. Qed.

Lemma getHash_func_PROJECT_PATH_truthy W args s :
  truthy (PROJECT_PATH s) = true ->
  truthy (PROJECT_PATH (snd (getHash_func W args s))) = true.
Proof.
  intros H. unfold getHash_func. unfold_M.
  destruct (negb (strict_eq_str _ _)); [assumption|].
  destruct (negb (truthy (arg 0 args))); [assumption|].
  destruct (get_prop _ _) as [given|e]; [|assumption].
  cbn [PROJECT_PATH].
  pose proof (truthy_or_else given _ H) as Hg.
  repeat split_match; simpl; assumption.
Qed.

Lemma memoize_PROJECT_PATH_truthy f resolver func args s :
  truthy (PROJECT_PATH s) = true ->
  truthy (PROJECT_PATH (snd (func args s))) = true ->
  truthy (PROJECT_PATH (snd (memoize f resolver func args s))) = true.
Proof.
  intros Hs Hf. unfold memoize.
  destruct (cache_get _ _); [assumption|].
  destruct (func args s) as [[v|e] s1]; exact Hf.
Qed.

Lemma run_PROJECT_PATH_truthy W f args s :
  truthy (PROJECT_PATH s) = true ->
  truthy (PROJECT_PATH (snd (run W f args s))) = true.
Proof.
  intros H. destruct f; simpl; apply memoize_PROJECT_PATH_truthy;
    try assumption.
  - destruct (getResourcePath_func_state W args s) as [-> | ->];
      [assumption|].
    apply memoize_PROJECT_PATH_truthy; [assumption|].
    now apply getHash_func_PROJECT_PATH_truthy.
  - now apply getHash_func_PROJECT_PATH_truthy.
  - rewrite getProductionStyles_func_PROJECT_PATH.
    destruct (get_prop _ _); [now apply truthy_or_else|assumption].
Qed.

(** X9.  In a process started in a working directory, [PROJECT_PATH] is
    never falsy: a call can replace it only by a truthy option. *)
Theorem PROJECT_PATH_never_empty W s :
  reachable W s -> cwd W <> "" -> truthy (PROJECT_PATH s) = true.
Proof.
  intros Hr Hc. unfold reachable in Hr.
  induction Hr as [|s' f args Hl IH Hwf].
  - simpl. apply truthy_or_else. simpl.
    apply String.eqb_neq in Hc. now rewrite Hc.
  - now apply run_PROJECT_PATH_truthy.
Qed.

Lemma PROJECT_PATH_never_empty_witness :
  let W := Sample.production in
  truthy (PROJECT_PATH
            (snd (run W the_getProductionStyles
                    [VStr "app"; VObj [("PROJECT_PATH", VStr "")]]
                    (initial W)))) = true.
Proof.
  intros W.
  refine (PROJECT_PATH_never_empty W _ _ _).
  - apply later_call; [apply later_now|reflexivity].
  - discriminate.
Defined.

(** X10.  A call of [getHash] that is not answered early, with a project
    path in force that is not a string, fails in [path.join] with a
    [TypeError]: nothing is logged or cached, and the bad value stays in
    [PROJECT_PATH] for the calls that follow. *)
Theorem getHash_rejects_non_string_PROJECT_PATH W s args :
  getHash_computes W s args ->
  arg 2 args <> VNull ->
  let project :=
    or_else (option_of (arg 2 args) "PROJECT_PATH") (PROJECT_PATH s) in
  (forall p, project <> VStr p) ->
  let result := getHash W args s in
  fst result = Throw path_TypeError
  /\ PROJECT_PATH (snd result) = project
  /\ console (snd result) = console s
  /\ forall f, cache_of f (snd result) = cache_of f s.
Proof.
  intros (Hp & Ht & _ & Hmiss) Hn project Hns result. subst result.
  apply in_production_iff in Hp. unfold in_production in Hp.
  unfold getHash. rewrite memoize_miss by exact Hmiss.
  unfold getHash_func. rewrite Hp, Ht. unfold_M. cbn [negb].
  rewrite (get_prop_not_null _ _ Hn). cbn [PROJECT_PATH].
  fold project. unfold path_join_js. cbn [all_strings].
  destruct project as [| | | |p|] eqn:E;
    try (repeat split; intros []; reflexivity).
  exfalso. now apply (Hns p).
Qed.

Lemma getHash_rejects_non_string_PROJECT_PATH_witness :
  let W := Sample.production in
  let s1 := snd (getHash W [VStr "app"; VStr "bundle";
                            VObj [("PROJECT_PATH", VNum 5)]] (initial W)) in
  PROJECT_PATH s1 = VNum 5
  /\ fst (getHash W [VStr "app"; VStr "bundle"] s1) = Throw path_TypeError.
Proof.
  intros W s1. split.
  - refine (proj1 (proj2 (getHash_rejects_non_string_PROJECT_PATH W (initial W)
              [VStr "app"; VStr "bundle"; VObj [("PROJECT_PATH", VNum 5)]]
              _ _ _))).
    + repeat split.
    + discriminate.
    + discriminate.
  - refine (proj1 (getHash_rejects_non_string_PROJECT_PATH W s1
              [VStr "app"; VStr "bundle"] _ _ _)).
    + repeat split.
    + discriminate.
    + discriminate.
Defined.

(** X12.  The key of [getResourcePath]: two argument lists share a cache
    entry exactly when they are the same up to what [JSON.stringify] does
    not write, an [undefined] argument being [null] and a property whose
    value is [undefined] being absent. *)
Theorem stringify_arguments_same_key args args' :
  stringify_arguments args = stringify_arguments args'
  <-> map norm_arg args = map norm_arg args'.
Proof.
  unfold stringify_arguments. split.
  - intros H. apply JSON_stringify_inj. congruence.
  - intros H. f_equal.
    rewrite <- (JSON_stringify_norm_arg args), H.
    apply JSON_stringify_norm_arg.
Qed.

(** X11.  The default [options = {}] does not replace [null]: a call
    that is not answered from the cache and reads its options throws a
    [TypeError] when they are [null], and changes nothing.
    [getProductionStyles] always reads them, [getHash] when it is not
    answered early, [getResourcePath] for a bundle in production or
    without [DEVSERVER_URL]. *)
Theorem null_options_throw W s appName type rest :
  let failed (result : completion value * State) :=
    (exists message, fst result = Throw (TypeError message))
    /\ snd result = s in
  (getProductionStyles_computes s (appName :: VNull :: rest) ->
   failed (getProductionStyles W (appName :: VNull :: rest) s))
  /\ (getHash_computes W s (appName :: type :: VNull :: rest) ->
      failed (getHash W (appName :: type :: VNull :: rest) s))
  /\ (cache_get (stringify_arguments (VStr "bundle" :: appName :: VNull :: rest))
        (getResourcePath_cache s) = None ->
      env W "NODE_ENV" = Some "production" \/ env W "DEVSERVER_URL" = None ->
      failed (getResourcePath W (VStr "bundle" :: appName :: VNull :: rest) s)).
Proof.
  intros failed. subst failed. cbv beta. split; [|split].
  - intros [_ Hmiss]. unfold getProductionStyles.
    rewrite memoize_miss by exact Hmiss.
    split; [eexists|]; reflexivity.
  - intros (Hp & Ht & _ & Hmiss). apply in_production_iff in Hp.
    unfold in_production in Hp.
    unfold getHash. rewrite memoize_miss by exact Hmiss.
    unfold getHash_func.
    change (arg 0 (appName :: type :: VNull :: rest)) with appName in Ht.
    change (arg 0 (appName :: type :: VNull :: rest)) with appName.
    rewrite Hp, Ht. split; [eexists|]; reflexivity.
  - intros Hmiss Henv. unfold getResourcePath.
    rewrite memoize_miss by exact Hmiss.
    unfold getResourcePath_func.
    change (arg 0 (VStr "bundle" :: appName :: VNull :: rest))
      with (VStr "bundle").
    cbn [strict_eq_str String.eqb Ascii.eqb Bool.eqb].
    destruct (strict_eq_str (process_env W "NODE_ENV") "production") eqn:Ep.
    + split; [eexists|]; reflexivity.
    + destruct Henv as [Hp|Hd].
      * apply in_production_iff in Hp. unfold in_production in Hp. congruence.
      * assert (Hs : process_env W "DEVSERVER_URL" = VUndefined)
          by (unfold process_env; now rewrite Hd).
        rewrite Hs. cbn [truthy].
        split; [eexists|]; reflexivity.
Qed.

Lemma null_options_throw_witness :
  let W := Sample.production in
  (exists message,
     fst (getProductionStyles W [VStr "app"; VNull] (initial W))
     = Throw (TypeError message))
  /\ (exists message,
        fst (getHash W [VStr "app"; VStr "bundle"; VNull] (initial W))
        = Throw (TypeError message))
  /\ (exists message,
        fst (getResourcePath W [VStr "bundle"; VStr "app"; VNull] (initial W))
        = Throw (TypeError message)).
Proof.
  intros W.
  pose proof (null_options_throw W (initial W) (VStr "app") (VStr "bundle") [])
    as (H1 & H2 & H3).
  split; [|split].
  - refine (proj1 (H1 _)). repeat split.
  - refine (proj1 (H2 _)). repeat split.
  - refine (proj1 (H3 _ _)); [reflexivity|left; reflexivity].
Defined.

End ResourceManagerSpec.

(** ** The client bootstrap *)

Module ClientInitSpec.
Import JS ClientInit.

Lemma lookup_set_field k v fields :
  lookup_field k (set_field k v fields) = v.
Proof.
  induction fields as [|[k' x] rest IH]; simpl.
  - now rewrite String.eqb_refl.
  - destruct (k' =? k) eqn:E; simpl.
    + now rewrite String.eqb_refl.
    + now rewrite E.
Qed.

(** The URL in the channel options, in full.  An option that is falsy but
    not nullish (the empty string) is not replaced by the configuration of
    the root module: [??=] leaves it, and [!options.baseUrl] then takes the
    default. *)
Lemma init_resolved P MODULE_options given plugins :
  resolved_baseUrl (init P MODULE_options given plugins) =
  Some (if isWeb P then DEFAULT_BASE_URL P
        else if truthy (explicit_baseUrl given) then explicit_baseUrl given
        else if is_nullish (explicit_baseUrl given) then
          if truthy (lookup_field "baseUrl" MODULE_options)
          then lookup_field "baseUrl" MODULE_options
          else DEFAULT_BASE_URL P
        else DEFAULT_BASE_URL P).
Proof.
  unfold resolved_baseUrl, init, explicit_baseUrl.
  set (options0 := match given with Some o => o | None => [] end).
  destruct (is_nullish (lookup_field "baseUrl" options0)) eqn:En.
  - assert (Hf : truthy (lookup_field "baseUrl" options0) = false)
      by (destruct (lookup_field "baseUrl" options0); try discriminate;
          reflexivity).
    rewrite Hf.
    destruct (isWeb P).
    + rewrite !lookup_set_field.
      destruct (truthy (DEFAULT_BASE_URL P)) eqn:Ed; cbn [negb];
        simpl; now rewrite lookup_set_field.
    + rewrite lookup_set_field.
      destruct (truthy (lookup_field "baseUrl" MODULE_options)); cbn [negb];
        simpl; now rewrite lookup_set_field.
  - destruct (isWeb P).
    + rewrite !lookup_set_field.
      destruct (truthy (DEFAULT_BASE_URL P)) eqn:Ed; cbn [negb];
        simpl; now rewrite lookup_set_field.
    + destruct (truthy (lookup_field "baseUrl" options0)); cbn [negb];
        simpl; [reflexivity|now rewrite lookup_set_field].
Qed.

(** C7.  The URL [init] writes into the channel options: on the web it
    is [DEFAULT_BASE_URL], whatever the options; elsewhere it follows the
    precedence explicit option, configuration of the root module, default
    of the platform, for an option that is given (truthy) or absent
    ([undefined] or [null]); an option that is falsy without being absent
    (the empty string) takes the default of the platform, whatever the
    configuration of the root module.  In particular, without an explicit
    [baseUrl] on the web it is [DEFAULT_BASE_URL]. *)
Theorem init_resolves_baseUrl P MODULE_options given plugins :
  let resolved := resolved_baseUrl (init P MODULE_options given plugins) in
  (isWeb P = true -> resolved = Some (DEFAULT_BASE_URL P))
  /\ (isWeb P = false ->
      truthy (explicit_baseUrl given) = true
      \/ is_nullish (explicit_baseUrl given) = true ->
      resolved =
      Some (by_precedence (explicit_baseUrl given)
              (lookup_field "baseUrl" MODULE_options) (DEFAULT_BASE_URL P)))
  /\ (isWeb P = true -> is_nullish (explicit_baseUrl given) = true ->
      resolved = Some (DEFAULT_BASE_URL P))
  /\ (isWeb P = false ->
      truthy (explicit_baseUrl given) = false ->
      is_nullish (explicit_baseUrl given) = false ->
      resolved = Some (DEFAULT_BASE_URL P)).
Proof.
  cbv zeta. rewrite init_resolved. unfold by_precedence.
  split; [|split; [|split]].
  - now intros ->.
  - intros -> [Ht|Hn].
    + now rewrite Ht.
    + rewrite Hn.
      assert (Hf : truthy (explicit_baseUrl given) = false)
        by (destruct (explicit_baseUrl given); try discriminate; reflexivity).
      now rewrite Hf.
  - now intros ->.
  - intros -> Ht Hn. now rewrite Ht, Hn.
Qed.

(** The three levels of the precedence, on a native platform. *)
Lemma init_resolves_baseUrl_witness :
  let P := {| DEFAULT_BASE_URL := VStr "http://localhost:3000";
              isDevelopment := false; isExpo := false; isWeb := false |} in
  let configured := [("baseUrl", VStr "https://configured.example")] in
  resolved_baseUrl
    (init P configured (Some [("baseUrl", VStr "https://explicit.example")]) [])
  = Some (VStr "https://explicit.example")
  /\ resolved_baseUrl (init P configured None [])
     = Some (VStr "https://configured.example")
  /\ resolved_baseUrl (init P [] None []) = Some (VStr "http://localhost:3000").
Proof.
  intros P configured. split; [|split].
  - exact (proj1 (proj2 (init_resolves_baseUrl P configured
             (Some [("baseUrl", VStr "https://explicit.example")]) []))
             eq_refl (or_introl eq_refl)).
  - exact (proj1 (proj2 (init_resolves_baseUrl P configured None []))
             eq_refl (or_intror eq_refl)).
  - exact (proj1 (proj2 (init_resolves_baseUrl P [] None []))
             eq_refl (or_intror eq_refl)).
Defined.

(** C7 does not hold as stated: an explicit [baseUrl] that is the empty
    string is not absent for [??=], so the configuration of the root
    module is passed over and the default of the platform is taken. *)
Lemma empty_baseUrl_skips_configuration :
  let configured := [("baseUrl", VStr "https://configured.example")] in
  let given := Some [("baseUrl", VStr "")] in
  let resolved := resolved_baseUrl (init native configured given []) in
  isWeb native = false
  /\ by_precedence (explicit_baseUrl given) (lookup_field "baseUrl" configured)
       (DEFAULT_BASE_URL native)
     = VStr "https://configured.example"
  /\ resolved = Some (VStr "http://localhost:3000")
  /\ resolved <>
     Some (by_precedence (explicit_baseUrl given)
             (lookup_field "baseUrl" configured) (DEFAULT_BASE_URL native)).
Proof. repeat split. simpl. discriminate. Qed.

Lemma run_plugins_no_connect plugins opts :
  ~ In call_connectModel (run_plugins plugins opts).
Proof.
  unfold run_plugins. rewrite in_flat_map.
  intros (p & _ & [H|[H|[]]]); discriminate.
Qed.

(** C8.  [init] calls [connectModel] exactly when [MODULE.options] has
    [enableServer] or [enableConnection] set; when neither is, the trace of
    [init] has no call of [connectModel]. *)
Theorem init_connects_when_enabled P MODULE_options given plugins :
  In call_connectModel (trace (init P MODULE_options given plugins))
  <-> (truthy (lookup_field "enableServer" MODULE_options) = true
       \/ truthy (lookup_field "enableConnection" MODULE_options) = true).
Proof.
  unfold init.
  match goal with
  | |- context [let '(w, o) := ?c in _] => destruct c as [warnings options3] eqn:Ew
  end.
  cbn [trace].
  assert (Hw : ~ In call_connectModel warnings).
  { revert Ew. repeat split_match; intros [= <- <-]; simpl; intuition discriminate. }
  rewrite !in_app_iff.
  assert (Hcalled : ~ (In call_connectModel warnings
                       \/ In call_connectModel [call_commonInit options3]
                       \/ In call_connectModel (run_plugins plugins options3))).
  { intros [H|[[H|[]]|H]]; [contradiction|discriminate|].
    eapply run_plugins_no_connect; eassumption. }
  unfold or_else.
  destruct (truthy (lookup_field "enableServer" MODULE_options)) eqn:Es;
    [rewrite Es; simpl in *; tauto|].
  destruct (truthy (lookup_field "enableConnection" MODULE_options)) eqn:Ec;
    simpl in *; [tauto|].
  split; [tauto|]. intros [H|H]; discriminate.
Qed.

(** *** Beyond the specification: the fallback, the warning and the
    options object *)

Lemma lookup_set_field_other k k' v fields :
  k' <> k -> lookup_field k' (set_field k v fields) = lookup_field k' fields.
Proof.
  intros Hk. apply String.eqb_neq in Hk.
  induction fields as [|[k0 x] rest IH]; simpl.
  - rewrite String.eqb_sym. now rewrite Hk.
  - destruct (k0 =? k) eqn:E; simpl.
    + apply String.eqb_eq in E. subst k0.
      rewrite String.eqb_sym. now rewrite Hk.
    + now rewrite IH.
Qed.

Lemma set_field_same k v fields :
  lookup_field k fields = v -> v <> VUndefined -> set_field k v fields = fields.
Proof.
  intros H Hv. induction fields as [|[k0 x] rest IH]; simpl in *.
  - congruence.
  - destruct (k0 =? k) eqn:E.
    + apply String.eqb_eq in E. congruence.
    + now rewrite IH.
Qed.

Lemma truthy_not_nullish v : truthy v = true -> is_nullish v = false.
Proof. now destruct v. Qed.

Lemma truthy_not_undefined v : truthy v = true -> v <> VUndefined.
Proof. now destruct v. Qed.

(** [hasExplicitBaseUrl]: the value of [options.baseUrl] after [??=]. *)
Lemma lookup_after_default given MODULE_options :
  lookup_field "baseUrl"
    (if is_nullish (lookup_field "baseUrl" (given_options given))
     then set_field "baseUrl" (lookup_field "baseUrl" MODULE_options)
            (given_options given)
     else given_options given)
  = effective_baseUrl (explicit_baseUrl given)
      (lookup_field "baseUrl" MODULE_options).
Proof.
  unfold effective_baseUrl, explicit_baseUrl. fold (given_options given).
  destruct (is_nullish _); [apply lookup_set_field|reflexivity].
Qed.

(** X14.  [init] forces the XHR fallback exactly when
    [MODULE.options.enableXhrFallback] is not [false] and either the
    build is a development build, or the platform is Expo off the web and
    no base URL was given.  A [baseUrl] of [MODULE.options] counts as
    given when the option of the call is absent. *)
Theorem init_forceXhrFallback P MODULE_options given plugins :
  channel_forceXhrFallback (init P MODULE_options given plugins) = Some true
  <-> lookup_field "enableXhrFallback" MODULE_options <> VBool false
      /\ (isDevelopment P = true
          \/ (isExpo P = true /\ isWeb P = false
              /\ truthy (effective_baseUrl (explicit_baseUrl given)
                           (lookup_field "baseUrl" MODULE_options)) = false)).
Proof.
  unfold channel_forceXhrFallback, init. fold (given_options given).
  rewrite lookup_after_default.
  match goal with
  | |- context [let '(w, o) := ?c in _] => destruct c as [warnings options3]
  end.
  cbn [startupjsChannelOptions option_map forceXhrFallback].
  assert (Hx : forall v, strict_neq_false v = true <-> v <> VBool false).
  { intros [| |[]| | |]; simpl; split; congruence. }
  rewrite <- Hx.
  destruct (strict_neq_false _), (isDevelopment P), (isExpo P), (isWeb P),
    (truthy _); simpl; split;
    intuition congruence.
Qed.

Lemma init_trace P MODULE_options given plugins :
  let st := init P MODULE_options given plugins in
  trace st =
  ((if negb (isWeb P) && negb (isExpo P && isDevelopment P)
      && negb (truthy (effective_baseUrl (explicit_baseUrl given)
                         (lookup_field "baseUrl" MODULE_options)))
   then [console_warn (NO_BASE_URL_WARN P)] else [])
  ++ call_commonInit (options st) :: run_plugins plugins (options st)
  ++ (if truthy (or_else (lookup_field "enableServer" MODULE_options)
                   (lookup_field "enableConnection" MODULE_options))
      then [call_connectModel] else []))%list.
Proof.
  cbv zeta. unfold init. fold (given_options given).
  set (options1 := if is_nullish _ then _ else _).
  pose proof (lookup_after_default given MODULE_options) as He.
  fold options1 in He.
  set (eff := effective_baseUrl _ _) in *.
  destruct (isWeb P) eqn:Ew.
  - rewrite lookup_set_field. cbn [orb negb andb].
    destruct (truthy (DEFAULT_BASE_URL P)); cbn [negb trace options app];
      rewrite <- ?app_assoc; reflexivity.
  - rewrite He. cbn [orb negb andb].
    destruct (truthy eff); cbn [negb andb trace options].
    + rewrite andb_false_r. rewrite <- ?app_assoc. reflexivity.
    + rewrite andb_true_r. 
      destruct (isExpo P && isDevelopment P); cbn [negb trace options];
        rewrite <- ?app_assoc; reflexivity.
Qed.

Lemma run_plugins_no_warn plugins opts message :
  ~ In (console_warn message) (run_plugins plugins opts).
Proof.
  unfold run_plugins. rewrite in_flat_map.
  intros (p & _ & [H|[H|[]]]); discriminate.
Qed.

Lemma warning_only_without_baseUrl P MODULE_options given plugins message :
  In (console_warn message) (trace (init P MODULE_options given plugins)) ->
  truthy (effective_baseUrl (explicit_baseUrl given)
            (lookup_field "baseUrl" MODULE_options)) = false.
Proof.
  rewrite init_trace. rewrite in_app_iff. simpl. rewrite in_app_iff.
  intros [H|[H|[H|H]]]; try discriminate.
  - destruct (truthy (effective_baseUrl _ _)); [|reflexivity].
    rewrite andb_false_r in H. destruct H.
  - now apply run_plugins_no_warn in H.
  - destruct (truthy (or_else _ _)); [destruct H as [H|[]]; discriminate|destruct H].
Qed.

(** X15.  The only warning of [init] is [NO_BASE_URL_WARN], and it is
    written exactly when no base URL was given, off the web and not in an
    Expo development build. *)
Theorem init_warns P MODULE_options given plugins message :
  In (console_warn message) (trace (init P MODULE_options given plugins))
  <-> message = NO_BASE_URL_WARN P
      /\ isWeb P = false
      /\ (isExpo P && isDevelopment P) = false
      /\ truthy (effective_baseUrl (explicit_baseUrl given)
                   (lookup_field "baseUrl" MODULE_options)) = false.
Proof.
  rewrite init_trace. rewrite in_app_iff. simpl. rewrite in_app_iff.
  split.
  - intros [H|[H|[H|H]]]; try discriminate.
    + destruct (isWeb P), (isExpo P && isDevelopment P), (truthy _);
        simpl in H; try contradiction.
      destruct H as [[= <-]|[]]. auto.
    + now apply run_plugins_no_warn in H.
    + destruct (truthy (or_else _ _));
        [destruct H as [H|[]]; discriminate|destruct H].
  - intros (-> & -> & -> & ->). left. simpl. auto.
Qed.

Lemma init_warns_witness :
  In (console_warn (NO_BASE_URL_WARN native))
     (trace (init native [("baseUrl", VStr "https://configured.example")]
               (Some [("baseUrl", VStr "")]) [])).
Proof.
  apply (proj2 (init_warns native
                  [("baseUrl", VStr "https://configured.example")]
                  (Some [("baseUrl", VStr "")]) []
                  (NO_BASE_URL_WARN native))).
  repeat split.
Defined.

Lemma init_state P MODULE_options given plugins :
  let st := init P MODULE_options given plugins in
  resolved_baseUrl st = Some (lookup_field "baseUrl" (options st))
  /\ axios_defaults_baseURL st = lookup_field "baseUrl" (options st).
Proof.
  cbv zeta. unfold resolved_baseUrl, init.
  match goal with
  | |- context [let '(w, o) := ?c in _] => destruct c as [warnings options3]
  end.
  split; reflexivity.
Qed.

(** X16.  [commonInit] and every deprecated plugin receive the options
    object as [init] leaves it, whose [baseUrl] is the URL of the channel
    options and of [axios.defaults.baseURL]. *)
Theorem init_hands_over_resolved_options P MODULE_options given plugins e o :
  let st := init P MODULE_options given plugins in
  In e (trace st) ->
  handed_options e = Some o ->
  o = options st
  /\ resolved_baseUrl st = Some (lookup_field "baseUrl" o)
  /\ axios_defaults_baseURL st = lookup_field "baseUrl" o.
Proof.
  intros st Hin Ho.
  destruct (init_state P MODULE_options given plugins) as (Hr & Ha).
  fold st in Hr, Ha.
  assert (E : o = options st); [|subst o; auto].
  unfold st in Hin. rewrite init_trace in Hin. fold st in Hin.
  rewrite in_app_iff in Hin. simpl in Hin. rewrite in_app_iff in Hin.
  destruct Hin as [H|[<-|[H|H]]].
  - destruct (_ && _); [destruct H as [<-|[]]; discriminate|destruct H].
  - simpl in Ho. congruence.
  - unfold run_plugins in H.
    apply in_flat_map in H as (p & _ & [<-|[<-|[]]]); simpl in Ho; congruence.
  - destruct (truthy (or_else _ _));
      [destruct H as [<-|[]]; discriminate|destruct H].
Qed.

Lemma init_hands_over_resolved_options_witness :
  let st := init native [("baseUrl", VStr "https://configured.example")]
              None ["legacy"] in
  [("baseUrl", VStr "https://configured.example")] = options st
  /\ resolved_baseUrl st = Some (VStr "https://configured.example")
  /\ axios_defaults_baseURL st = VStr "https://configured.example".
Proof.
  intros st.
  refine (init_hands_over_resolved_options native
            [("baseUrl", VStr "https://configured.example")] None ["legacy"]
            (call_plugin "legacy" [("baseUrl", VStr "https://configured.example")])
            _ _ eq_refl).
  simpl. auto.
Defined.

(** X17.  Of the options object it is given, [init] changes [baseUrl]
    only. *)
Theorem init_changes_only_baseUrl P MODULE_options given plugins k :
  k <> "baseUrl" ->
  lookup_field k (options (init P MODULE_options given plugins))
  = lookup_field k (given_options given).
Proof.
  intros Hk. unfold init. fold (given_options given).
  match goal with
  | |- context [let '(w, o) := ?c in _] =>
      destruct c as [warnings options3] eqn:Ew
  end.
  cbn [options]. revert Ew.
  repeat split_match; intros [= _ <-];
    rewrite ?lookup_set_field_other by exact Hk; reflexivity.
Qed.

Lemma init_changes_only_baseUrl_witness :
  lookup_field "plugins"
    (options (init native [("baseUrl", VStr "https://configured.example");
                           ("plugins", VStr "configured")]
                (Some [("plugins", VStr "given")]) []))
  = VStr "given".
Proof.
  refine (init_changes_only_baseUrl native _ (Some [("plugins", VStr "given")])
            [] "plugins" _).
  discriminate.
Defined.

Lemma init_resolved_truthy P MODULE_options given plugins :
  truthy (DEFAULT_BASE_URL P) = true ->
  exists url, resolved_baseUrl (init P MODULE_options given plugins) = Some url
              /\ truthy url = true.
Proof.
  intros Hd. rewrite init_resolved. eexists. split; [reflexivity|].
  destruct (isWeb P); [assumption|].
  destruct (truthy (explicit_baseUrl given)) eqn:E1; [assumption|].
  destruct (is_nullish _); [|assumption].
  destruct (truthy (lookup_field "baseUrl" MODULE_options)) eqn:E2; assumption.
Qed.

(** X18.  With a truthy [DEFAULT_BASE_URL], the base URL [init] puts into
    [axios.defaults.baseURL], the options and the channel options is
    truthy, whatever the options and the configuration. *)
Theorem init_baseUrl_never_empty P MODULE_options given plugins :
  truthy (DEFAULT_BASE_URL P) = true ->
  let st := init P MODULE_options given plugins in
  truthy (axios_defaults_baseURL st) = true
  /\ truthy (lookup_field "baseUrl" (options st)) = true
  /\ exists url, resolved_baseUrl st = Some url /\ truthy url = true.
Proof.
  intros Hd st.
  destruct (init_resolved_truthy P MODULE_options given plugins Hd)
    as (url & Hu & Ht).
  destruct (init_state P MODULE_options given plugins) as (Hr & Ha).
  fold st in Hu, Hr, Ha.
  rewrite Ha. rewrite Hr in Hu. injection Hu as Hu. rewrite Hu.
  repeat split; try assumption.
  exists url. split; [congruence|assumption].
Qed.

Lemma init_baseUrl_never_empty_witness :
  truthy (axios_defaults_baseURL
            (init native [("baseUrl", VNum 0)]
               (Some [("baseUrl", VStr "")]) [])) = true.
Proof.
  exact (proj1 (init_baseUrl_never_empty native [("baseUrl", VNum 0)]
                  (Some [("baseUrl", VStr "")]) [] eq_refl)).
Defined.

(** X19.  Calling [init] again with the options object of an earlier
    call leaves the object and the base URL as they are, and does not
    warn. *)
Theorem init_again P MODULE_options given plugins plugins' :
  truthy (DEFAULT_BASE_URL P) = true ->
  let st := init P MODULE_options given plugins in
  let st' := init P MODULE_options (Some (options st)) plugins' in
  options st' = options st
  /\ resolved_baseUrl st' = resolved_baseUrl st
  /\ forall message, ~ In (console_warn message) (trace st').
Proof.
  intros Hd st st'.
  destruct (init_state P MODULE_options given plugins) as (Hr & _).
  fold st in Hr.
  assert (Ht : truthy (lookup_field "baseUrl" (options st)) = true).
  { destruct (init_resolved_truthy P MODULE_options given plugins Hd)
      as (url & Hu & Ht).
    fold st in Hu. congruence. }
  assert (Ho : options st' = options st).
  { subst st'. unfold init at 1. cbn [given_options].
    set (o := options st) in *.
    rewrite (truthy_not_nullish _ Ht).
    destruct (isWeb P) eqn:Ew.
    - assert (E : lookup_field "baseUrl" o = DEFAULT_BASE_URL P).
      { pose proof (init_resolved P MODULE_options given plugins) as H.
        fold st in H. rewrite Hr, Ew in H. congruence. }
      rewrite (set_field_same _ _ _ E (truthy_not_undefined _ Hd)).
      rewrite Ht. reflexivity.
    - rewrite Ht. reflexivity. }
  split; [exact Ho|split].
  - destruct (init_state P MODULE_options (Some (options st)) plugins')
      as (Hr' & _).
    fold st' in Hr'. now rewrite Hr', Hr, Ho.
  - intros message H. apply warning_only_without_baseUrl in H.
    unfold effective_baseUrl, explicit_baseUrl in H.
    rewrite (truthy_not_nullish _ Ht) in H. congruence.
Qed.

Lemma init_again_witness :
  let st := init native [] None [] in
  let st' := init native [] (Some (options st)) [] in
  options st' = [("baseUrl", VStr "http://localhost:3000")]
  /\ channel_forceXhrFallback st = Some true
  /\ channel_forceXhrFallback st' = Some false.
Proof.
  intros st st'. split; [|split; reflexivity].
  exact (proj1 (init_again native [] None [] [] eq_refl)).
Defined.

End ClientInitSpec.
